(** * EFB Telegram Master channel: error recovery and configuration loading

    A shallow embedding of [TelegramChannel.error] and
    [TelegramChannel.load_config] from
    [ehforwarderbot/channels/master/blueset/telegram/__init__.py],
    together with the properties of the recovery policy that the
    specification states about them.

    The handler is effectful: it bumps a counter, writes log records,
    talks to the Telegram gateway and rewrites chat associations.  All of
    this is threaded through an explicit [world]; an exception raised by a
    Python statement is an [outcome] next to the world reached so far, so
    that the effects performed before the exception stay visible. *)

From Stdlib Require Import Ascii String ZArith.
From stdpp Require Import base decidable option list strings pretty gmap fin_maps.

Local Set Warnings "-register-all".
Local Open Scope Z_scope.

(** ** Strings *)

Module Str.

Definition nl : string := String "010"%char EmptyString.
Definition backslash : string := String "092"%char EmptyString.

(** Python's [needle in hay] for strings. *)
Fixpoint contains (needle hay : string) : bool :=
  String.prefix needle hay ||
  match hay with
  | EmptyString => false
  | String _ rest => contains needle rest
  end.

(** [html.escape(s)] with the default [quote=True]: the five
    replacements, none of which produces a character a later one
    rewrites, applied character by character. *)
Definition escape_char (c : ascii) : string :=
  if Ascii.eqb c "&"%char then "&amp;"
  else if Ascii.eqb c "<"%char then "&lt;"
  else if Ascii.eqb c ">"%char then "&gt;"
  else if Ascii.eqb c "034"%char then "&quot;"
  else if Ascii.eqb c "'"%char then "&#x27;"
  else String c EmptyString.

Fixpoint html_escape (s : string) : string :=
  match s with
  | EmptyString => EmptyString
  | String c rest => escape_char c +:+ html_escape rest
  end.

(** [str(n)] for a Python integer. *)
Definition of_int (n : Z) : string := pretty n.

(** The characters [0]..[9]. *)
Definition is_digit_char (c : ascii) : bool :=
  let n := Ascii.N_of_ascii c in ((48 <=? n) && (n <=? 57))%N.

Fixpoint all_digits (s : string) : bool :=
  match s with
  | EmptyString => true
  | String c rest => is_digit_char c && all_digits rest
  end.

(** The non-empty strings of the characters [0]..[9]. *)
Definition ascii_digits (s : string) : bool :=
  match s with
  | EmptyString => false
  | _ => all_digits s
  end.

(** The number that a string of the characters [0]..[9] spells in
    decimal, most significant digit first. *)
Fixpoint int_acc (acc : Z) (s : string) : Z :=
  match s with
  | EmptyString => acc
  | String c rest =>
      int_acc (10 * acc + (Z.of_N (Ascii.N_of_ascii c) - 48)) rest
  end.

Definition decimal_value (s : string) : Z := int_acc 0 s.


(** Some ASCII character of the string is not one of [0]..[9]. *)
Fixpoint has_ascii_nondigit (s : string) : bool :=
  match s with
  | EmptyString => false
  | String c rest =>
      ((Ascii.N_of_ascii c <? 128)%N && negb (is_digit_char c)) ||
      has_ascii_nondigit rest
  end.

End Str.

(** ** Telegram values *)

(** The classes of [telegram.error] that the handler's [except] clauses
    name, and everything else.  [BadRequest] and [TimedOut] derive from
    [NetworkError] in the library; the handler lists [BadRequest] before
    the network clause, so a [BadRequest] is never taken for a network
    error. *)
Inductive error_class :=
  | Unauthorized
  | BadRequest
  | TimedOut
  | NetworkError
  | ChatMigrated (new_chat_id : Z)
  | OtherError.

(** The [error] argument: its class and [str(error)]. *)
Record tg_error := TgError {
  err_class : error_class;
  err_str : string
}.

(** [telegram.Message], as far as the handler reads it. *)
Record Message := Msg {
  chat_id : Z;
  message_id : Z
}.

(** [telegram.Update]: [message] is [None] for updates that carry no
    message; [upd_str] is [str(update)]. *)
Record Update := Upd {
  message : option Message;
  upd_str : string
}.

(** [str(update)] where [update] may be [None]. *)
Definition str_update (update : option Update) : string :=
  match update with
  | None => "None"
  | Some u => upd_str u
  end.

(** ** The world the handler acts on *)

Inductive level := DEBUG | ERROR | CRITICAL.

(** A call that leaves through the Bot Gateway. *)
Inductive gateway_call :=
  | BotManagerSend (target : Z) (text : string) (parse_mode : option string)
  | BotSend (target : Z) (text : string) (parse_mode : option string)
  | ReplyText (to : Message) (text : string) (quote : bool)
              (parse_mode : option string).

Inductive exn :=
  | TelegramError      (* a gateway call failed *)
  | AttributeError     (* attribute read on [None] *)
  | IndexError         (* [admins][0] on an empty list *)
  | ConstraintViolation.

Record world := World {
  timeout_count : Z;
  db : gmap string string;         (* slave uid -> master uid *)
  logged : list (level * string);
  outbox : list gateway_call       (* gateway calls made, oldest first *)
}.

Inductive outcome (A : Type) :=
  | Returned (a : A)
  | Raised (e : exn).
Arguments Returned {A} a.
Arguments Raised {A} e.

(** A command: the outcome and the world it leaves, also when it raises. *)
Definition M (A : Type) : Type := world → outcome A * world.

Definition ret {A} (a : A) : M A := λ w, (Returned a, w).
Definition raise {A} (e : exn) : M A := λ w, (Raised e, w).
Definition bind {A B} (m : M A) (k : A → M B) : M B :=
  λ w, match m w with
       | (Returned a, w') => k a w'
       | (Raised e, w') => (Raised e, w')
       end.

Declare Scope cmd_scope.
Delimit Scope cmd_scope with cmd.
Notation "x <- m ;; k" := (bind m (λ x, k))
  (at level 100, m at next level, right associativity) : cmd_scope.
Notation "m ;; k" := (bind m (λ _, k))
  (at level 100, right associativity) : cmd_scope.
Local Open Scope cmd_scope.

(** [try: body except: handler finally: last] with a bare [except]. *)
Definition try_except_finally (body handler last : M unit) : M unit :=
  λ w, match body w with
       | (Returned _, w') => last w'
       | (Raised _, w') =>
           match handler w' with
           | (Returned _, w'') => last w''
           | (Raised e, w'') =>
               match last w'' with
               | (Returned _, w''') => (Raised e, w''')
               | r => r
               end
           end
       end.

Definition get_timeout_count : M Z := λ w, (Returned (timeout_count w), w).
Definition set_timeout_count (n : Z) : M unit :=
  λ w, (Returned (), World n (db w) (logged w) (outbox w)).
Definition get_db : M (gmap string string) := λ w, (Returned (db w), w).
Definition set_db (d : gmap string string) : M unit :=
  λ w, (Returned (), World (timeout_count w) d (logged w) (outbox w)).
Definition logger (l : level) (text : string) : M unit :=
  λ w, (Returned (),
        World (timeout_count w) (db w) (logged w ++ [(l, text)]) (outbox w)).

(** The gateway as the handler meets it: given the calls made so far and
    the call at hand, it either delivers or raises.  The handler has no
    influence on which. *)
Definition gateway := list gateway_call → gateway_call → bool.

Definition always_delivers : gateway := λ _ _, true.
Definition never_delivers : gateway := λ _ _, false.

Definition gateway_send (gw : gateway) (c : gateway_call) : M unit :=
  λ w, let w' := World (timeout_count w) (db w) (logged w) (outbox w ++ [c]) in
       if gw (outbox w) c then (Returned (), w') else (Raised TelegramError, w').

(** ** The association store *)

(** Modelled from the spec: [etm_utils.chat_id_to_str] (utils.py is not
    among the sources).  A conversation ref is serialised to the single
    string key [{originSystem}#{conversationId}]. *)
Definition chat_id_to_str (channel_id : string) (chat : Z) : string :=
  channel_id +:+ "#" +:+ Str.of_int chat.

(** Modelled from the spec: [DatabaseManager.get_chat_assoc(master_uid=..)]
    (db.py is not among the sources).  [FindByMaster]: the slave refs
    bound to a master, none if there is no such row.  Rows are keyed by
    slave-ref string and store the master-ref string.  [slaves_of] is the
    lookup and [get_chat_assoc] the call. *)
Definition slaves_of (master_uid : string) (d : gmap string string)
  : list string :=
  map fst (map_to_list
             (filter (λ row : string * string, row.2 = master_uid) d)).

Definition get_chat_assoc (master_uid : string) : M (list string) :=
  λ w, (Returned (slaves_of master_uid (db w)), w).

(** Modelled from the spec: [DatabaseManager.remove_chat_assoc(slave_uid=..)]
    (db.py is not among the sources).  [Remove]: drops the row of the
    slave ref; no error if there is none. *)
Definition remove_chat_assoc (slave_uid : string) : M unit :=
  λ w, (Returned (),
        World (timeout_count w) (delete slave_uid (db w)) (logged w) (outbox w)).

(** Modelled from the spec: [DatabaseManager.add_chat_assoc(master_uid=..,
    slave_uid=..)] (db.py is not among the sources).  [Put]: fails with
    [ConstraintViolation] if the slave ref is already bound to a different
    master ref, and records the row otherwise. *)
Definition add_chat_assoc (master_uid slave_uid : string) : M unit :=
  λ w, match db w !! slave_uid with
       | Some m =>
           if decide (m = master_uid)
           then (Returned (), w)
           else (Raised ConstraintViolation, w)
       | None =>
           (Returned (),
            World (timeout_count w) (<[slave_uid := master_uid]> (db w))
                  (logged w) (outbox w))
       end.

(** ** The channel's configuration, as the handler reads it *)

(** [self.config['admins']], the experimental flag
    [network_error_prompt_interval] read through [self.flag], and
    [self.channel_id]. *)
Record config := Config {
  admins : list Z;
  network_error_prompt_interval : Z;
  channel_id : string
}.

(** ** Message texts *)

Module Text.
Import Str.

Definition conflict_marker : string :=
  "Conflict: terminated by other long poll or webhook (409)".

Definition conflicted_polling : string :=
  "Conflicted polling detected. If this error persists, " +:+
  "please ensure you are running only one instance of this Telegram bot.".

Definition not_authorised (update : option Update) (e : tg_error) : string :=
  "The bot is not authorised to send update:" +:+ nl +:+
  str_update update +:+ nl +:+ err_str e.

Definition invalid_request_log (update : option Update) (e : tg_error)
  : string :=
  "Message request is invalid." +:+ nl +:+
  str_update update +:+ nl +:+ err_str e.

Definition invalid_request_alert (update : option Update) (e : tg_error)
  : string :=
  "Message request is invalid." +:+ nl +:+
  html_escape (err_str e) +:+ nl +:+
  "<code>" +:+ html_escape (str_update update) +:+ "</code>)".

Definition poor_connection_log (count : Z) (update : option Update)
           (e : tg_error) : string :=
  "Poor internet connection detected." +:+ nl +:+
  "Number of network error occurred since last startup: " +:+
  of_int count +:+ nl +:+ backslash +:+ err_str e +:+ nl +:+
  "Update: " +:+ str_update update.

Definition not_processed (e : tg_error) : string :=
  "This message is not processed due to poor internet environment " +:+
  "of the server." +:+ nl +:+
  "<code>" +:+ html_escape (err_str e) +:+ "</code>".

Definition poor_connection_alert (count : Z) : string :=
  "<b>EFB Telegram Master channel</b>" +:+ nl +:+
  "You may have a poor internet connection on your server. " +:+
  "Currently " +:+ of_int count +:+ " network errors are detected." +:+ nl +:+
  "For more details, please refer to the log.".

Definition migrating (slave : string) (old_id new_id : Z) : string :=
  "Migrating slave chat " +:+ slave +:+ " from Telegram chat " +:+
  of_int old_id +:+ " to " +:+ of_int new_id +:+ ".".

Definition migration_detected (count : Z) : string :=
  "Chat migration detected." +:+
  "All remote chats (" +:+ of_int count +:+
  ") are now linked to this new group.".

Definition encountered_error (update : option Update) (e : tg_error)
  : string :=
  "EFB Telegram Master channel encountered error <code>" +:+
  html_escape (err_str e) +:+ "</code> " +:+
  "caused by update <code>" +:+ html_escape (str_update update) +:+
  "</code>.".

Definition failed_to_send : string :=
  "Failed to send error message through Telegram.".

Definition unhandled (update : option Update) (e : tg_error) : string :=
  "Unhandled telegram bot error!" +:+ nl +:+
  "Update " +:+ str_update update +:+ " caused error " +:+ err_str e.

End Text.

Definition HTML : option string := Some "HTML".

(** ** [TelegramChannel.error] *)

(** A [for] loop over a list that threads a local variable. *)
Fixpoint for_each {A S : Type} (l : list A) (body : S → A → M S) (s : S)
  : M S :=
  match l with
  | [] => ret s
  | x :: rest => s' <- body s x ;; for_each rest body s'
  end.

Section Handler.

Variable cfg : config.
Variable gw : gateway.

(** [self.config['admins'][0]] *)
Definition first_admin : M Z :=
  match admins cfg with
  | [] => raise IndexError
  | a :: _ => ret a
  end.

(** [update.message.chat_id] *)
Definition update_message_chat_id (update : option Update) : M Z :=
  match update with
  | None => raise AttributeError
  | Some u =>
      match message u with
      | None => raise AttributeError
      | Some m => ret (chat_id m)
      end
  end.

(** [update is not None and
     isinstance(getattr(update, "message", None), telegram.Message)] *)
Definition reply_target (update : option Update) : option Message :=
  match update with
  | None => None
  | Some u => message u
  end.

(** The text test that opens the handler. *)
Definition is_conflict (e : tg_error) : bool :=
  Str.contains Text.conflict_marker (err_str e).

(** Lines 242-246. *)
Definition on_conflict : M unit :=
  let msg := Text.conflicted_polling in
  logger CRITICAL msg ;;
  a <- first_admin ;;
  gateway_send gw (BotManagerSend a msg None).

(** Line 250. *)
Definition on_unauthorized (update : option Update) (e : tg_error) : M unit :=
  logger ERROR (Text.not_authorised update e).

(** Lines 252-255. *)
Definition on_bad_request (update : option Update) (e : tg_error) : M unit :=
  logger ERROR (Text.invalid_request_log update e) ;;
  a <- first_admin ;;
  gateway_send gw (BotManagerSend a (Text.invalid_request_alert update e) HTML).

(** Lines 257-273. *)
Definition on_network_error (update : option Update) (e : tg_error)
  : M unit :=
  n <- get_timeout_count ;;
  set_timeout_count (n + 1) ;;
  n1 <- get_timeout_count ;;
  logger ERROR (Text.poor_connection_log n1 update e) ;;
  match reply_target update with
  | Some m => gateway_send gw (ReplyText m (Text.not_processed e) true HTML)
  | None => ret ()
  end ;;
  let timeout_interval := network_error_prompt_interval cfg in
  n2 <- get_timeout_count ;;
  if (0 <? timeout_interval) && (n2 mod timeout_interval =? 0)
  then a <- first_admin ;;
       n3 <- get_timeout_count ;;
       gateway_send gw (BotManagerSend a (Text.poor_connection_alert n3) HTML)
  else ret ().

(** The body of the loop at lines 278-282. *)
Definition migrate_row (old_id new_id : Z) (count : Z) (i : string) : M Z :=
  logger DEBUG (Text.migrating i old_id new_id) ;;
  remove_chat_assoc i ;;
  add_chat_assoc (chat_id_to_str (channel_id cfg) new_id) i ;;
  ret (count + 1).

(** Lines 275-284. *)
Definition on_chat_migrated (update : option Update) (new_chat_id : Z)
  : M unit :=
  let new_id := new_chat_id in
  old_id <- update_message_chat_id update ;;
  slaves <- get_chat_assoc (chat_id_to_str (channel_id cfg) old_id) ;;
  count <- for_each slaves (migrate_row old_id new_id) 0 ;;
  gateway_send gw (BotSend new_id (Text.migration_detected count) None).

(** Lines 286-295. *)
Definition on_other (update : option Update) (e : tg_error) : M unit :=
  try_except_finally
    (a <- first_admin ;;
     gateway_send gw (BotSend a (Text.encountered_error update e) HTML))
    (logger ERROR Text.failed_to_send)
    (logger ERROR (Text.unhandled update e)).

(** [error(self, bot, update, error)].  [bot.send_message] and
    [self.bot_manager.send_message] both leave through the gateway and
    are told apart in the [outbox]. *)
Definition error (update : option Update) (e : tg_error) : M unit :=
  if is_conflict e then on_conflict
  else
    match err_class e with
    | Unauthorized => on_unauthorized update e
    | BadRequest => on_bad_request update e
    | TimedOut | NetworkError => on_network_error update e
    | ChatMigrated new_chat_id => on_chat_migrated update new_chat_id
    | OtherError => on_other update e
    end.

End Handler.

(** ** [TelegramChannel.load_config] *)

(** What [yaml.load] hands back is a Python object graph: scalars, and
    lists and dictionaries that live in a heap and are reached through
    references, so that two places of the document can hold the same list
    (a YAML anchor and its aliases).  Python's [bool] is a subclass of
    [int], so [isinstance(True, int)] holds.  A string is given by its
    UTF-8 bytes.  A dictionary is given by its entries under string
    keys: [load_config] reads and writes no other key. *)
Inductive value :=
  | VNone
  | VBool (b : bool)
  | VInt (n : Z)
  | VFloat (lexeme : string)
  | VStr (s : string)
  | VRef (l : positive).

Inductive object :=
  | OList (items : list value)
  | ODict (entries : gmap string value).

Definition isinstance_int (v : value) : bool :=
  match v with
  | VInt _ | VBool _ => true
  | _ => false
  end.

Definition isinstance_str (v : value) : bool :=
  match v with
  | VStr _ => true
  | _ => false
  end.

(** [isinstance(v, list)], with the list object and where it lives. *)
Definition as_list (h : gmap positive object) (v : value)
  : option (positive * list value) :=
  match v with
  | VRef l =>
      match h !! l with
      | Some (OList items) => Some (l, items)
      | _ => None
      end
  | _ => None
  end.

(** The objects that have a [get] method: dictionaries. *)
Definition as_dict (h : gmap positive object) (v : value)
  : option (positive * gmap string value) :=
  match v with
  | VRef l =>
      match h !! l with
      | Some (ODict entries) => Some (l, entries)
      | _ => None
      end
  | _ => None
  end.

(** The two built-ins [load_config] calls on strings.  They are Python's,
    not this file's, and are taken as they come: [str_isdigit s] is
    [s.isdigit()], and [int_of_str s] is [int(s)], with [None] where
    [int] raises [ValueError].  [isdigit] follows the Unicode digit
    property, so it holds of digits of every script and of characters
    such as the superscript two, which [int] refuses. *)
Record python := Python {
  str_isdigit : string → bool;
  int_of_str : string → option Z
}.

(** What is known of the built-ins on ASCII: a non-empty string of the
    characters [0]..[9] passes [isdigit] and [int] reads it as the
    decimal number it spells (no bound on the length of the string, as
    in the interpreters before 3.11 and in later ones with the limit
    lifted); a string with any other ASCII character in it does not pass
    [isdigit]. *)
Definition reads_ascii_decimals (py : python) : Prop :=
  (∀ s, Str.ascii_digits s = true →
        str_isdigit py s = true ∧
        int_of_str py s = Some (Str.decimal_value s)) ∧
  (∀ s, Str.has_ascii_nondigit s = true → str_isdigit py s = false).

(** The exceptions of [load_config] from the parsed document on.
    [NoAttribute] is the [AttributeError] of a [get] on an object that
    has none; the [ValueError]s carry the entry they are about. *)
Inductive config_exn :=
  | ValueError (text : string) (found : option value)
  | NoAttribute (name : string)
  | ListIndexError
  | TypeError.

Module ConfigText.
Definition token_must_be_string : string :=
  "Telegram bot token must be a string".
Definition admins_must_be_list : string :=
  "Admins' user IDs must be a list of one number or more.".
Definition admin_id_expected : string :=
  "Admin ID is expected to be a string, but %r is found.".
Definition invalid_literal : string :=
  "invalid literal for int() with base 10: %r".
End ConfigText.

(** One round of the loop at lines 145-149 on the list object that
    [data['admins']] refers to: the assignment of line 147 is made in
    place, in the heap. *)
Definition check_admin (py : python) (la : positive) (i : nat)
           (h : gmap positive object) : config_exn + gmap positive object :=
  match h !! la with
  | Some (OList items) =>
      match items !! i with
      | None => inl ListIndexError
      | Some v =>
          let converted : config_exn + gmap positive object :=
            match v with
            | VStr s =>
                if str_isdigit py s then
                  match int_of_str py s with
                  | Some n => inr (<[la := OList (<[i := VInt n]> items)]> h)
                  | None =>
                      inl (ValueError ConfigText.invalid_literal (Some v))
                  end
                else inr h
            | _ => inr h
            end in
          match converted with
          | inl e => inl e
          | inr h1 =>
              match h1 !! la with
              | Some (OList items1) =>
                  match items1 !! i with
                  | None => inl ListIndexError
                  | Some v1 =>
                      if isinstance_int v1 then inr h1
                      else inl (ValueError ConfigText.admin_id_expected
                                           (Some v1))
                  end
              | _ => inl TypeError
              end
          end
      end
  | _ => inl TypeError
  end.

(** [for i in range(len(data['admins'])): ...] *)
Fixpoint check_admins (py : python) (la : positive) (indices : list nat)
         (h : gmap positive object) : config_exn + gmap positive object :=
  match indices with
  | [] => inr h
  | i :: rest =>
      match check_admin py la i h with
      | inl e => inl e
      | inr h1 => check_admins py la rest h1
      end
  end.

(** Lines 139-142: a single integer, or a string that passes [isdigit],
    is replaced by a new one-element list. *)
Definition wrap_single (py : python) (data : gmap string value)
           (h : gmap positive object)
  : config_exn + (gmap string value * gmap positive object) :=
  let '(data1, h1) :=
    match data !! "admins" with
    | Some v =>
        if isinstance_int v
        then (<["admins" := VRef (fresh (dom h))]> data,
              <[fresh (dom h) := OList [v]]> h)
        else (data, h)
    | None => (data, h)
    end in
  match data1 !! "admins" with
  | Some (VStr s) =>
      if str_isdigit py s then
        match int_of_str py s with
        | Some n =>
            inr (<["admins" := VRef (fresh (dom h1))]> data1,
                 <[fresh (dom h1) := OList [VInt n]]> h1)
        | None => inl (ValueError ConfigText.invalid_literal (Some (VStr s)))
        end
      else inr (data1, h1)
  | _ => inr (data1, h1)
  end.

(** [load_config] from the parsed document on.  [root] is what
    [yaml.load] returned and [h] the heap its references live in.  The
    result is the value assigned to [self.config], as the entries of the
    copied dictionary together with the heap they refer to, in which the
    dictionary of the document carries the same entries; or the
    exception raised. *)
Definition load_config (py : python) (root : value)
           (h : gmap positive object)
  : config_exn + (gmap string value * gmap positive object) :=
  match as_dict h root with
  | None => inl (NoAttribute "get")
  | Some (r, data) =>
      match data !! "token" with
      | Some (VStr _) =>
          match wrap_single py data h with
          | inl e => inl e
          | inr (data2, h2) =>
              match data2 !! "admins" with
              | Some v =>
                  match as_list h2 v with
                  | Some (la, items) =>
                      if (length items <? 1)%nat
                      then inl (ValueError ConfigText.admins_must_be_list None)
                      else
                        match check_admins py la (seq 0 (length items)) h2 with
                        | inl e => inl e
                        | inr h3 => inr (data2, <[r := ODict data2]> h3)
                        end
                  | None =>
                      inl (ValueError ConfigText.admins_must_be_list None)
                  end
              | None => inl (ValueError ConfigText.admins_must_be_list None)
              end
          end
      | _ => inl (ValueError ConfigText.token_must_be_string None)
      end
  end.

(** ** Classification *)

(** The categories of the recovery policy. *)
Module Category.
Inductive t :=
  | PollingConflict
  | Unauthorized
  | InvalidRequest
  | NetworkTransient
  | ConversationMigrated
  | Unclassified.
End Category.

(** The category whose branch [error] runs: the text test of line 241
    first, then the [except] clauses in the order they are written. *)
Definition classify (e : tg_error) : Category.t :=
  if is_conflict e then Category.PollingConflict
  else
    match err_class e with
    | Unauthorized => Category.Unauthorized
    | BadRequest => Category.InvalidRequest
    | TimedOut | NetworkError => Category.NetworkTransient
    | ChatMigrated _ => Category.ConversationMigrated
    | OtherError => Category.Unclassified
    end.

(** Operator alerts among gateway calls: what goes out through
    [self.bot_manager.send_message]. *)
Definition is_operator_alert (c : gateway_call) : bool :=
  match c with
  | BotManagerSend _ _ _ => true
  | _ => false
  end.

Definition operator_alerts (calls : list gateway_call) : nat :=
  length (List.filter is_operator_alert calls).

(** The handler run on one failure after the other, as the dispatcher
    does: each run starts in the world the previous one left, whether it
    returned or raised. *)
Definition feed (cfg : config) (gw : gateway)
           (failures : list (option Update * tg_error)) (w : world) : world :=
  foldl (λ w f, (error cfg gw f.1 f.2 w).2) w failures.

(** What a reader of the store sees for a slave ref.
    Modelled from the spec: [FindBySlave], the master of a slave ref, if
    any (db.py is not among the sources). *)
Definition find_by_slave (slave_uid : string) (w : world) : option string :=
  db w !! slave_uid.

(** The worlds a reader can come across while one row is migrated: before
    the loop body and after each of its three statements (lines 279, 280,
    281). *)
Definition migrate_row_states (cfg : config) (old_id new_id : Z)
           (i : string) (w : world) : list world :=
  let w1 := (logger DEBUG (Text.migrating i old_id new_id) w).2 in
  let w2 := (remove_chat_assoc i w1).2 in
  let w3 := (add_chat_assoc (chat_id_to_str (channel_id cfg) new_id) i w2).2 in
  [w; w1; w2; w3].


(** ** Vocabulary for the configuration *)

(** The integer a string is converted to, when it is: the string passes
    [isdigit] and [int] accepts it. *)
Definition converts (py : python) (s : string) : option Z :=
  if str_isdigit py s then int_of_str py s else None.

(** A configured admin entry the loader accepts: an integer, or a digit
    string, that is a string that is converted. *)
Definition admin_entry_ok (py : python) (v : value) : bool :=
  isinstance_int v ||
  match v with
  | VStr s => bool_decide (is_Some (converts py s))
  | _ => false
  end.

(** Digit strings become integers; anything else is left alone. *)
Definition normalize_entry (py : python) (v : value) : value :=
  match v with
  | VStr s =>
      match converts py s with
      | Some n => VInt n
      | None => v
      end
  | _ => v
  end.

(** The list the [admins] field normalises to, if it does: a list as it
    is, a single integer or digit string as a one-element list. *)
Definition normalized_admins (py : python) (h : gmap positive object)
           (data : gmap string value) : option (list value) :=
  match data !! "admins" with
  | Some (VStr s) =>
      match converts py s with
      | Some n => Some [VInt n]
      | None => None
      end
  | Some v => if isinstance_int v then Some [v] else snd <$> as_list h v
  | None => None
  end.

Definition token_is_string (data : gmap string value) : bool :=
  match data !! "token" with
  | Some (VStr _) => true
  | _ => false
  end.

(** [self.config['admins']] of a loaded configuration, as a list. *)
Definition config_admins (res : gmap string value * gmap positive object)
  : option (list value) :=
  match res.1 !! "admins" with
  | Some v => snd <$> as_list res.2 v
  | None => None
  end.

(** The chat id a validated admin entry stands for; [True == 1] in
    Python. *)
Definition as_int (v : value) : option Z :=
  match v with
  | VInt n => Some n
  | VBool b => Some (if b then 1 else 0)
  | _ => None
  end.

(** [self.config['admins']] of a loaded configuration, as the handler
    indexes it. *)
Definition loaded_admins (res : gmap string value * gmap positive object)
  : list Z :=
  match config_admins res with
  | Some l => omap as_int l
  | None => []
  end.

(** The [ValueError] an entry that is not accepted ends the loop with:
    that of [int] for a string that passes [isdigit] and is refused by
    [int], that of line 149 otherwise. *)
Definition entry_error (py : python) (v : value) : config_exn :=
  match v with
  | VStr s =>
      if str_isdigit py s
      then ValueError ConfigText.invalid_literal (Some v)
      else ValueError ConfigText.admin_id_expected (Some v)
  | _ => ValueError ConfigText.admin_id_expected (Some v)
  end.


(** ** An excerpt of the built-ins *)

(** [isdigit], and [int] on the strings that pass it (the only ones
    [load_config] hands to [int]), for strings made of ASCII characters,
    of the Arabic-Indic digits U+0660..U+0669 (decimal digits like the
    ASCII ones) and of the superscripts U+00B2, U+00B3 and U+00B9 (digits
    without a decimal value, which [int] refuses).  Every other character
    is taken for no digit.  The excerpt is there to evaluate
    [load_config] on sample documents; the properties are stated for
    every pair of built-ins. *)
Module Excerpt.

(** The characters of a string as digits: [Some d] for a decimal digit
    of value [d], [None] for a digit that has no decimal value; no list
    at all if some character is not a digit. *)
Fixpoint digits (s : string) : option (list (option Z)) :=
  match s with
  | EmptyString => Some []
  | String c rest =>
      let n := Z.of_N (Ascii.N_of_ascii c) in
      if Str.is_digit_char c then cons (Some (n - 48)) <$> digits rest
      else
        match rest with
        | EmptyString => None
        | String c2 rest2 =>
            let n2 := Z.of_N (Ascii.N_of_ascii c2) in
            if (n =? 217) && (160 <=? n2) && (n2 <=? 169)
            then cons (Some (n2 - 160)) <$> digits rest2
            else if (n =? 194) &&
                    ((n2 =? 178) || (n2 =? 179) || (n2 =? 185))
            then cons None <$> digits rest2
            else None
        end
  end.

Fixpoint value_acc (acc : Z) (ds : list (option Z)) : option Z :=
  match ds with
  | [] => Some acc
  | Some d :: rest => value_acc (10 * acc + d) rest
  | None :: _ => None
  end.

Definition isdigit (s : string) : bool :=
  match digits s with
  | Some (_ :: _) => true
  | _ => false
  end.

Definition int (s : string) : option Z :=
  match digits s with
  | Some (d :: ds) => value_acc 0 (d :: ds)
  | _ => None
  end.

Definition python : python := Python isdigit int.

(** U+0661 U+0662 U+0663, the Arabic-Indic digits one, two, three. *)
Definition arabic_123 : string :=
  String "217" (String "161" (String "217" (String "162"
    (String "217" (String "163" EmptyString))))).

(** U+00B2, the superscript two. *)
Definition superscript_two : string := String "194" (String "178" EmptyString).

End Excerpt.

(** ** Sample documents *)

Module ConfigSample.

(** The example of the class docstring, with one ID quoted:
    a mapping at [1] whose [admins] is the list at [2]. *)
Definition docstring : gmap positive object :=
  {[ 1%positive :=
       ODict {[ "token" := VStr "12345678:1a2b3c4d5e6g7h8i9j";
                "admins" := VRef 2 ]};
     2%positive := OList [VInt 102938475; VStr "91827364"] ]}.

(** A document in which another key is an alias of the admins list. *)
Definition aliased : gmap positive object :=
  {[ 1%positive :=
       ODict {[ "token" := VStr "t"; "admins" := VRef 2;
                "operators" := VRef 2 ]};
     2%positive := OList [VStr "7"; VInt 8] ]}.

(** A mapping with the given [admins]. *)
Definition with_admins (v : value) : gmap positive object :=
  {[ 1%positive := ODict {[ "token" := VStr "t"; "admins" := v ]} ]}.

Definition list_of (items : list value) : gmap positive object :=
  {[ 1%positive := ODict {[ "token" := VStr "t"; "admins" := VRef 2 ]};
     2%positive := OList items ]}.

End ConfigSample.

(** A command that leaves the association store as it found it. *)
Definition keeps_db {A} (m : M A) : Prop := ∀ w, db (m w).2 = db w.

(** A gateway that delivers whatever it is given. *)
Definition delivers (gw : gateway) : Prop := ∀ history c, gw history c = true.

(** A gateway on which replies to a message fail and everything else is
    delivered. *)
Definition replies_fail : gateway :=
  λ _ c, match c with ReplyText _ _ _ _ => false | _ => true end.

(** [Migrate(old, new)] on the store, in the spec's words: every row whose
    master equals the old ref has its master field rewritten to the new
    ref; all other rows stay. *)
Definition rewrite_master (old_uid new_uid : string)
           (d : gmap string string) : gmap string string :=
  (λ m, if decide (m = old_uid) then new_uid else m) <$> d.

(** The number of rows bound to a master. *)
Definition bound_to (master_uid : string) (d : gmap string string) : Z :=
  Z.of_nat (size (filter (λ row : string * string, row.2 = master_uid) d)).

(** ** Sample inputs *)

Module Sample.

Definition cfg : config := Config [102938475; 91827364] 5 "telegram".

Definition fresh : world := World 0 ∅ [] [].

(** One slave chat linked to the Telegram group 100. *)
Definition linked : world :=
  World 0 {[ "wechat#group1" := "telegram#100" ]} [] [].

Definition msg100 : Message := Msg 100 7.
Definition upd100 : Update := Upd (Some msg100) "{'update_id': 1}".

(** An update that carries no message, such as a callback query. *)
Definition upd_callback : Update := Upd None "{'callback_query': 2}".

Definition timed_out : tg_error := TgError TimedOut "Timed out".
Definition unauthorized : tg_error :=
  TgError Unauthorized "Forbidden: bot was kicked from the group chat".
Definition conflict : tg_error :=
  TgError NetworkError
          "Conflict: terminated by other long poll or webhook (409)".
Definition forbidden_conflict : tg_error :=
  TgError Unauthorized
          "Conflict: terminated by other long poll or webhook (409)".
Definition bad_request : tg_error := TgError BadRequest "Chat not found".
Definition migrated : tg_error :=
  TgError (ChatMigrated 200)
          "Group migrated to supergroup. New chat id: 200".

End Sample.

(** A command that leaves the network-error counter as it found it. *)
Definition keeps_counter {A} (m : M A) : Prop :=
  ∀ w, timeout_count (m w).2 = timeout_count w.

(** The records of level [CRITICAL] in the log. *)
Definition is_critical (r : level * string) : bool :=
  match r.1 with
  | CRITICAL => true
  | _ => false
  end.

Definition criticals (w : world) : nat :=
  length (List.filter is_critical (logged w)).

(** A command that writes no [CRITICAL] record. *)
Definition keeps_criticals {A} (m : M A) : Prop :=
  ∀ w, criticals (m w).2 = criticals w.

(** The failures that the network clause of line 256 catches. *)
Definition is_network_failure (e : tg_error) : bool :=
  match classify e with
  | Category.NetworkTransient => true
  | _ => false
  end.

(** Replies among gateway calls: what goes out through
    [update.message.reply_text]. *)
Definition is_reply (c : gateway_call) : bool :=
  match c with
  | ReplyText _ _ _ _ => true
  | _ => false
  end.

(** How often a character occurs in a string. *)
Fixpoint count_char (c : ascii) (s : string) : nat :=
  match s with
  | EmptyString => 0
  | String c' rest => (if Ascii.eqb c c' then 1 else 0) + count_char c rest
  end.

(** ** [TelegramChannel.info] *)

(** [update.message] as [info] reads it: the message itself, the id of
    its sender and the title of its chat. *)
Record Command := Cmd {
  cmd_message : Message;
  from_user_id : Z;
  chat_title : string
}.

(** A slave channel in [coordinator.slaves], as [info] prints it. *)
Record slave_channel := SlaveChannel {
  channel_emoji : string;
  channel_name : string;
  channel_version : string
}.

(** [coordinator.slaves[id]] on the dictionary in insertion order; [None]
    where Python raises [KeyError]. *)
Fixpoint slave_lookup (id : string) (slaves : list (string * slave_channel))
  : option slave_channel :=
  match slaves with
  | [] => None
  | (id', ch) :: rest =>
      if String.eqb id id' then Some ch else slave_lookup id rest
  end.

Inductive info_exn := KeyError (key : string).

Module InfoText.
Import Str.

Definition private_header (version : string) (n : nat) : string :=
  "This is EFB Telegram Master Channel " +:+ version +:+ ", " +:+
  "you currently have " +:+ of_int (Z.of_nat n) +:+
  " slave channels activated:".

Definition slave_line (id : string) (ch : slave_channel) : string :=
  nl +:+ "- " +:+ channel_emoji ch +:+ " " +:+ channel_name ch +:+
  " (" +:+ id +:+ ", " +:+ channel_version ch +:+ ")".

Definition linked_header (group_name : string) (group_id : Z) : string :=
  "The group " +:+ group_name +:+ " (" +:+ of_int group_id +:+ ") is " +:+
  "linked to the following chat(s):".

Definition known_line (full_name : string) : string :=
  nl +:+ "- " +:+ full_name.

Definition unknown_line (ch : slave_channel) (chat : string) : string :=
  nl +:+ "- " +:+ channel_emoji ch +:+ " " +:+ channel_name ch +:+
  ": Unknown chat (" +:+ chat +:+ ")".

Definition not_linked (group_name : string) (group_id : Z) : string :=
  "The group " +:+ group_name +:+ " (" +:+ of_int group_id +:+
  ") is not linked to any remote chat. " +:+
  "To link one, use /link.".

End InfoText.

Section Info.

(** What [info] takes from the rest of the channel: its own version and
    id, the active slave channels, and the helpers of [etm_utils] and
    [ChatBindingManager] that are not part of this file. *)
Variable version : string.
Variable channel : string.
Variable slaves : list (string * slave_channel).
Variable chat_id_str_to_id : string → string * string.
Variable chat_record : Type.
Variable get_chat_from_db : string → string → option chat_record.
Variable full_name : chat_record → string.

(** Lines 165-168: one line per active slave channel. *)
Fixpoint slave_lines (l : list (string * slave_channel)) (msg : string)
  : info_exn + string :=
  match l with
  | [] => inr msg
  | (i, _) :: rest =>
      match slave_lookup i slaves with
      | None => inl (KeyError i)
      | Some ch => slave_lines rest (msg +:+ InfoText.slave_line i ch)
      end
  end.

(** Lines 176-185: the line of one linked chat. *)
Definition link_line (i : string) : info_exn + string :=
  let '(channel_id, chat_id) := chat_id_str_to_id i in
  match get_chat_from_db channel_id chat_id with
  | Some d => inr (InfoText.known_line (full_name d))
  | None =>
      match slave_lookup channel_id slaves with
      | None => inl (KeyError channel_id)
      | Some ch => inr (InfoText.unknown_line ch chat_id)
      end
  end.

(** Lines 175-185: the loop over the links. *)
Fixpoint link_lines (links : list string) (msg : string) : info_exn + string :=
  match links with
  | [] => inr msg
  | i :: rest =>
      match link_line i with
      | inl e => inl e
      | inr line => link_lines rest (msg +:+ line)
      end
  end.

(** [info(self, bot, update)] up to its last statement: the text it
    passes to [update.message.reply_text], or the exception raised while
    the text is put together.  The store is only read. *)
Definition info (c : Command) (d : gmap string string) : info_exn + string :=
  if chat_id (cmd_message c) =? from_user_id c then
    slave_lines slaves (InfoText.private_header version (length slaves))
  else
    let links :=
      slaves_of (chat_id_to_str channel (chat_id (cmd_message c))) d in
    match links with
    | [] => inr (InfoText.not_linked (chat_title c) (chat_id (cmd_message c)))
    | _ =>
        link_lines links
          (InfoText.linked_header (chat_title c) (chat_id (cmd_message c)))
    end.

(** A linked chat for which [info] has nothing to print: no record of it
    in the database and no active channel to name in its place. *)
Definition nothing_to_print (i : string) : Prop :=
  get_chat_from_db (chat_id_str_to_id i).1 (chat_id_str_to_id i).2 = None ∧
  slave_lookup (chat_id_str_to_id i).1 slaves = None.

End Info.

(** Sample surroundings for [info]: one active slave channel, and a
    database that knows the chats of that channel by name. *)
Module InfoSample.

Definition slaves : list (string * slave_channel) :=
  [("wechat", SlaveChannel "W" "WeChat Slave" "1.0")].

Definition chat_id_str_to_id (i : string) : string * string :=
  if String.eqb i "wechat#group1" then ("wechat", "group1") else ("qq", i).

Definition get_chat_from_db (channel_id chat : string) : option string :=
  if String.eqb channel_id "wechat" then Some "Family" else None.

Definition full_name (d : string) : string := d.

Definition in_group : Command := Cmd Sample.msg100 55 "My group".

End InfoSample.

(** * Properties *)

(** ** Strings *)

Lemma app_cons c s t : String c s +:+ t = String c (s +:+ t).
Proof. reflexivity. Qed.

Lemma prefix_spec needle hay :
  String.prefix needle hay = true ↔ ∃ post, hay = needle +:+ post.
Proof.
  revert hay.
  induction needle as [|c needle IH]; intros [|c' hay]; cbn.
  - split; [|done]. intros _. by exists EmptyString.
  - split; [|done]. intros _. by exists (String c' hay).
  - split; [done|]. intros [post Hpost]. by rewrite app_cons in Hpost.
  - destruct (Ascii.ascii_dec c c') as [->|Hne].
    + rewrite IH. split; intros [post Hpost]; exists post;
        rewrite app_cons in *; congruence.
    + split; [done|]. intros [post Hpost].
      rewrite app_cons in Hpost. congruence.
Qed.

(** [Str.contains] is Python's [in]: the needle occurs somewhere in the
    string. *)
Lemma contains_spec needle hay :
  Str.contains needle hay = true ↔
  ∃ pre post, hay = pre +:+ needle +:+ post.
Proof.
  induction hay as [|c hay IH]; cbn [Str.contains];
    rewrite orb_true_iff, prefix_spec.
  - split.
    + intros [[post Hpost]|?]; [|done]. by exists EmptyString, post.
    + intros (pre & post & H). left.
      destruct pre as [|c' pre]; [by exists post|].
      rewrite app_cons in H. done.
  - rewrite IH. split.
    + intros [[post Hpost]|(pre & post & ->)].
      * by exists EmptyString, post.
      * by exists (String c pre), post.
    + intros (pre & post & H). destruct pre as [|c' pre].
      * left. by exists post.
      * right. exists pre, post. rewrite app_cons in H. congruence.
Qed.

(** ** Running commands *)

Ltac run :=
  repeat first
    [ progress cbn [fst snd timeout_count db logged outbox]
    | progress unfold bind, ret, raise, logger, get_timeout_count,
        set_timeout_count, gateway_send, first_admin ].

Lemma classify_conflict e :
  classify e = Category.PollingConflict ↔ is_conflict e = true.
Proof.
  unfold classify. destruct (is_conflict e); [done|].
  split; [|done]. by destruct (err_class e).
Qed.

(** ** Frame: who touches the store *)

Lemma keeps_db_ret {A} (a : A) : keeps_db (ret a).
Proof. done. Qed.

Lemma keeps_db_raise {A} e : keeps_db (@raise A e).
Proof. done. Qed.

Lemma keeps_db_bind {A B} (m : M A) (k : A → M B) :
  keeps_db m → (∀ a, keeps_db (k a)) → keeps_db (bind m k).
Proof.
  intros Hm Hk w. unfold bind. specialize (Hm w).
  destruct (m w) as [[a|e] w']; cbn in *; [|done].
  by rewrite Hk.
Qed.

Lemma keeps_db_logger l t : keeps_db (logger l t).
Proof. done. Qed.

Lemma keeps_db_gateway_send gw c : keeps_db (gateway_send gw c).
Proof. intros w. unfold gateway_send. by destruct (gw _ _). Qed.

Lemma keeps_db_first_admin cfg : keeps_db (first_admin cfg).
Proof. intros w. unfold first_admin. by destruct (admins cfg). Qed.

Lemma keeps_db_get_timeout_count : keeps_db get_timeout_count.
Proof. done. Qed.

Lemma keeps_db_set_timeout_count n : keeps_db (set_timeout_count n).
Proof. done. Qed.

Lemma keeps_db_try body handler last :
  keeps_db body → keeps_db handler → keeps_db last →
  keeps_db (try_except_finally body handler last).
Proof.
  intros Hb Hh Hl w. unfold try_except_finally.
  specialize (Hb w). destruct (body w) as [[[]|e] w1]; cbn in *.
  - by rewrite Hl.
  - specialize (Hh w1). destruct (handler w1) as [[[]|e'] w2]; cbn in *.
    + rewrite Hl. congruence.
    + specialize (Hl w2). destruct (last w2) as [[[]|e''] w3]; cbn in *;
        congruence.
Qed.

Create HintDb frame.
#[local] Hint Resolve keeps_db_ret keeps_db_raise keeps_db_logger
  keeps_db_gateway_send keeps_db_first_admin keeps_db_get_timeout_count
  keeps_db_set_timeout_count : frame.

Ltac frame :=
  repeat first
    [ apply keeps_db_bind; [|intros ?]
    | apply keeps_db_try
    | match goal with |- keeps_db (match ?x with _ => _ end) => destruct x end
    | match goal with |- keeps_db (if ?x then _ else _) => destruct x end
    | solve [auto with frame] ].

Lemma keeps_db_on_conflict cfg gw : keeps_db (on_conflict cfg gw).
Proof. unfold on_conflict. frame. Qed.

Lemma keeps_db_on_unauthorized u e : keeps_db (on_unauthorized u e).
Proof. unfold on_unauthorized. frame. Qed.

Lemma keeps_db_on_bad_request cfg gw u e : keeps_db (on_bad_request cfg gw u e).
Proof. unfold on_bad_request. frame. Qed.

Lemma keeps_db_on_network_error cfg gw u e :
  keeps_db (on_network_error cfg gw u e).
Proof. unfold on_network_error. frame. Qed.

Lemma keeps_db_on_other cfg gw u e : keeps_db (on_other cfg gw u e).
Proof. unfold on_other. frame. Qed.

(** C8.  For every transport failure, every update, every gateway and
    every starting world: unless the failure is classified as
    [ConversationMigrated], the association store after the handler is the
    store before it, whether the handler returned or raised.  The
    migration branch is the only one that adds or removes rows. *)
Theorem store_changes_only_on_migration cfg gw update e w :
  classify e ≠ Category.ConversationMigrated →
  db (error cfg gw update e w).2 = db w.
Proof.
  unfold classify, error. destruct (is_conflict e).
  - intros _. apply keeps_db_on_conflict.
  - destruct (err_class e); intros Hc;
      [ apply keeps_db_on_unauthorized
      | apply keeps_db_on_bad_request
      | apply keeps_db_on_network_error
      | apply keeps_db_on_network_error
      | done
      | apply keeps_db_on_other ].
Qed.

Lemma store_changes_only_on_migration_witness :
  classify Sample.timed_out ≠ Category.ConversationMigrated ∧
  db (error Sample.cfg never_delivers (Some Sample.upd100) Sample.timed_out
            Sample.linked).2 = db Sample.linked.
Proof.
  split.
  - vm_compute. discriminate.
  - apply store_changes_only_on_migration. vm_compute. discriminate.
Defined.

(** ** The conflict branch *)

Lemma on_conflict_run cfg gw w a rest :
  admins cfg = a :: rest →
  (on_conflict cfg gw w).2 =
    World (timeout_count w) (db w)
          (logged w ++ [(CRITICAL, Text.conflicted_polling)])
          (outbox w ++ [BotManagerSend a Text.conflicted_polling None]).
Proof.
  intros Ha. unfold on_conflict. run. rewrite Ha. run.
  by destruct (gw _ _).
Qed.

(** C6.  When a failure is classified as [PollingConflict], the handler
    writes one record at critical severity and hands the gateway exactly
    one call, the alert to the first administrator; the network-error
    counter and the association store are what they were, and nothing else
    is logged or sent in that invocation. *)
Theorem polling_conflict_alerts_once cfg gw update e w a rest :
  classify e = Category.PollingConflict →
  admins cfg = a :: rest →
  let w' := (error cfg gw update e w).2 in
  timeout_count w' = timeout_count w ∧
  db w' = db w ∧
  logged w' = logged w ++ [(CRITICAL, Text.conflicted_polling)] ∧
  outbox w' = outbox w ++ [BotManagerSend a Text.conflicted_polling None].
Proof.
  intros Hc Ha. apply classify_conflict in Hc.
  unfold error. rewrite Hc. cbn zeta.
  by rewrite (on_conflict_run _ _ _ _ _ Ha).
Qed.

Lemma polling_conflict_alerts_once_witness :
  let w' := (error Sample.cfg always_delivers None Sample.conflict
                   Sample.linked).2 in
  timeout_count w' = 0 ∧
  db w' = db Sample.linked ∧
  logged w' = [(CRITICAL, Text.conflicted_polling)] ∧
  outbox w' = [BotManagerSend 102938475 Text.conflicted_polling None].
Proof.
  apply (polling_conflict_alerts_once Sample.cfg always_delivers None
           Sample.conflict Sample.linked 102938475 [91827364]).
  - vm_compute. reflexivity.
  - reflexivity.
Defined.

(** C9.  The text test comes before every class test: an error whose
    string form contains the conflict marker is classified as
    [PollingConflict] and the handler does what the conflict branch does
    and nothing more, whatever class the error has. *)
Theorem conflict_text_precedes_class cfg gw update k s w :
  Str.contains Text.conflict_marker s = true →
  classify (TgError k s) = Category.PollingConflict ∧
  error cfg gw update (TgError k s) w = on_conflict cfg gw w.
Proof.
  intros Hs. unfold classify, error, is_conflict. cbn [err_str].
  by rewrite Hs.
Qed.

Lemma conflict_text_precedes_class_witness :
  classify Sample.forbidden_conflict = Category.PollingConflict ∧
  error Sample.cfg always_delivers (Some Sample.upd100)
        Sample.forbidden_conflict Sample.fresh =
    on_conflict Sample.cfg always_delivers Sample.fresh.
Proof.
  apply (conflict_text_precedes_class Sample.cfg always_delivers
           (Some Sample.upd100) Unauthorized _ Sample.fresh).
  vm_compute. reflexivity.
Defined.

(** ** The unauthorized branch *)

Lemma unauthorized_returns cfg gw update e w :
  classify e = Category.Unauthorized →
  (error cfg gw update e w).1 = Returned ().
Proof.
  unfold classify, error. destruct (is_conflict e); [done|].
  by destruct (err_class e).
Qed.

(** C7.  When a failure is classified as [Unauthorized], the handler
    returns after adding one error record to the log: the gateway is
    handed nothing, for the conversation or for an operator, and counter
    and association store are what they were. *)
Theorem unauthorized_only_logs cfg gw update e w :
  classify e = Category.Unauthorized →
  error cfg gw update e w =
    (Returned (),
     World (timeout_count w) (db w)
           (logged w ++ [(ERROR, Text.not_authorised update e)])
           (outbox w)).
Proof.
  unfold classify, error. destruct (is_conflict e); [done|].
  by destruct (err_class e).
Qed.

Lemma unauthorized_only_logs_witness :
  error Sample.cfg never_delivers (Some Sample.upd100) Sample.unauthorized
        Sample.linked =
    (Returned (),
     World 0 (db Sample.linked)
           [(ERROR, Text.not_authorised (Some Sample.upd100)
                                        Sample.unauthorized)]
           []).
Proof.
  apply (unauthorized_only_logs Sample.cfg never_delivers
           (Some Sample.upd100) Sample.unauthorized Sample.linked).
  vm_compute. reflexivity.
Defined.

(** ** The network branch *)

Lemma operator_alerts_app l1 l2 :
  operator_alerts (l1 ++ l2) = (operator_alerts l1 + operator_alerts l2)%nat.
Proof. unfold operator_alerts. by rewrite List.filter_app, length_app. Qed.

Lemma classify_network e :
  classify e = Category.NetworkTransient →
  ∀ cfg gw update, error cfg gw update e = on_network_error cfg gw update e.
Proof.
  unfold classify, error. destruct (is_conflict e); [done|].
  by destruct (err_class e).
Qed.

(** The counter goes up by one on every network failure, whatever the
    gateway does and whether the handler returns or raises. *)
Lemma network_error_counter cfg gw update e w :
  classify e = Category.NetworkTransient →
  timeout_count (error cfg gw update e w).2 = timeout_count w + 1.
Proof.
  intros Hc. rewrite (classify_network _ Hc).
  unfold on_network_error. run.
  destruct (reply_target update) as [m|]; run.
  - destruct (gw _ _); run; [|done].
    destruct (_ && _); run; [|done].
    destruct (admins cfg); run; [done|]. by destruct (gw _ _).
  - destruct (_ && _); run; [|done].
    destruct (admins cfg); run; [done|]. by destruct (gw _ _).
Qed.

(** When the reply, if there is one to make, goes through, the operator
    alert is attempted exactly when the interval is positive and divides
    the counter reached. *)
Lemma network_error_alert cfg gw update e w a rest :
  classify e = Category.NetworkTransient →
  admins cfg = a :: rest →
  (∀ m, reply_target update = Some m →
        gw (outbox w) (ReplyText m (Text.not_processed e) true HTML) = true) →
  let k := network_error_prompt_interval cfg in
  let n := timeout_count w + 1 in
  operator_alerts (outbox (error cfg gw update e w).2) =
    (operator_alerts (outbox w) +
     if ((0 <? k) && (n mod k =? 0))%Z then 1 else 0)%nat.
Proof.
  intros Hc Ha Hreply. rewrite (classify_network _ Hc).
  unfold on_network_error. run.
  destruct (reply_target update) as [m|]; run.
  - rewrite (Hreply m eq_refl). run.
    destruct (_ && _); run; rewrite ?Ha; run.
    + destruct (gw _ _); run; rewrite !operator_alerts_app; cbn; lia.
    + rewrite operator_alerts_app. cbn. lia.
  - destruct (_ && _); run; rewrite ?Ha; run.
    + destruct (gw _ _); run; by rewrite !operator_alerts_app.
    + lia.
Qed.

Lemma div_succ n k :
  0 ≤ n → 0 < k →
  (n + 1) / k = n / k + (if (n + 1) mod k =? 0 then 1 else 0).
Proof.
  intros Hn Hk.
  pose proof (Z.div_mod n k ltac:(lia)) as Hdm.
  pose proof (Z.mod_pos_bound n k Hk) as Hb.
  destruct (decide (n mod k + 1 = k)) as [Heq|Hne].
  - assert (n + 1 = (n / k + 1) * k) as Hmul by lia.
    rewrite Hmul, Z.mod_mul, Z.div_mul by lia. done.
  - assert ((n + 1) mod k = n mod k + 1) as Hm.
    { symmetry. apply (Z.mod_unique_pos _ _ (n / k)); lia. }
    assert ((n + 1) / k = n / k) as Hd.
    { symmetry. apply (Z.div_unique_pos _ _ _ (n mod k + 1)); lia. }
    rewrite Hm, Hd. destruct (Z.eqb_spec (n mod k + 1) 0); lia.
Qed.

(** On a gateway that delivers, [n] network failures in a row from a
    fresh counter leave the counter at [n] and have alerted the operator
    [n / k] times for a positive interval [k], and never for an interval
    that is not positive. *)
Lemma feed_network_errors cfg gw failures w a rest :
  delivers gw →
  admins cfg = a :: rest →
  Forall (λ f, classify f.2 = Category.NetworkTransient) failures →
  timeout_count w = 0 → operator_alerts (outbox w) = 0%nat →
  let k := network_error_prompt_interval cfg in
  let n := Z.of_nat (length failures) in
  let w' := feed cfg gw failures w in
  timeout_count w' = n ∧
  Z.of_nat (operator_alerts (outbox w')) = if 0 <? k then n / k else 0.
Proof.
  intros Hgw Ha Hall Hc0 Ha0. cbn zeta.
  induction failures as [|f failures IH] using rev_ind.
  - cbn. rewrite Hc0, Ha0. by destruct (0 <? _).
  - apply Forall_app in Hall as [Hall Hf]. apply Forall_inv in Hf.
    destruct (IH Hall) as [IHc IHa]. clear IH.
    unfold feed in *. rewrite foldl_app. cbn [foldl].
    rewrite length_app, Nat2Z.inj_add. cbn [length]. split.
    + rewrite (network_error_counter _ _ _ _ _ Hf), IHc. lia.
    + rewrite (network_error_alert _ _ _ _ _ a rest Hf Ha)
        by (intros; apply Hgw).
      rewrite Nat2Z.inj_add, IHa, IHc.
      destruct (Z.ltb_spec 0 (network_error_prompt_interval cfg)); cbn [andb].
      * rewrite div_succ by lia.
        change (Z.of_nat 1) with 1. by destruct (_ =? 0).
      * cbn. lia.
Qed.

(** C2.  With an alert interval of 5, five network failures in a row from
    a fresh counter, each for an update whose reply fails: the counter
    reaches 5, yet no operator alert is attempted, because the exception
    of the fifth reply leaves the handler before the interval test of
    line 267 is reached.  (On a gateway that delivers the replies,
    [feed_network_errors] gives the one alert.) *)
Theorem five_failures_with_failing_replies :
  let failures := replicate 5 (Some Sample.upd100, Sample.timed_out) in
  Forall (λ f, classify f.2 = Category.NetworkTransient) failures ∧
  network_error_prompt_interval Sample.cfg = 5 ∧
  let w := feed Sample.cfg replies_fail failures Sample.fresh in
  timeout_count w = 5 ∧ operator_alerts (outbox w) = 0%nat.
Proof.
  cbn zeta. split; [|split; [reflexivity|split; vm_compute; reflexivity]].
  repeat constructor.
Qed.

(** The same five failures with replies that go through: one alert. *)
Example five_failures_delivered :
  let failures := replicate 5 (Some Sample.upd100, Sample.timed_out) in
  let w := feed Sample.cfg always_delivers failures Sample.fresh in
  timeout_count w = 5 ∧ operator_alerts (outbox w) = 1%nat.
Proof. split; vm_compute; reflexivity. Qed.

Example four_failures_delivered :
  let failures := replicate 4 (Some Sample.upd100, Sample.timed_out) in
  let w := feed Sample.cfg always_delivers failures Sample.fresh in
  timeout_count w = 4 ∧ operator_alerts (outbox w) = 0%nat.
Proof. split; vm_compute; reflexivity. Qed.

(** A reply the gateway refuses ends the handler with the gateway's
    exception, after the counter and the log were updated and before the
    interval test. *)
Lemma failed_reply_escapes cfg gw update e w m :
  classify e = Category.NetworkTransient →
  reply_target update = Some m →
  gw (outbox w) (ReplyText m (Text.not_processed e) true HTML) = false →
  error cfg gw update e w =
    (Raised TelegramError,
     World (timeout_count w + 1) (db w)
           (logged w ++
              [(ERROR, Text.poor_connection_log (timeout_count w + 1) update e)])
           (outbox w ++ [ReplyText m (Text.not_processed e) true HTML])).
Proof.
  intros Hc Hm Hgw. rewrite (classify_network _ Hc).
  unfold on_network_error. run. rewrite Hm. run. by rewrite Hgw.
Qed.

(** C5.  A network failure for an update that has a reply target, on a
    gateway that refuses the reply: the handler makes the one reply
    attempt and then ends by raising the gateway's exception to its
    caller; the failure of the reply is not swallowed. *)
Theorem failed_reply_is_raised :
  classify Sample.timed_out = Category.NetworkTransient ∧
  reply_target (Some Sample.upd100) = Some Sample.msg100 ∧
  error Sample.cfg replies_fail (Some Sample.upd100) Sample.timed_out
        Sample.fresh =
    (Raised TelegramError,
     World 1 ∅
           [(ERROR, Text.poor_connection_log 1 (Some Sample.upd100)
                                             Sample.timed_out)]
           [ReplyText Sample.msg100 (Text.not_processed Sample.timed_out)
                      true HTML]).
Proof. repeat split; vm_compute; reflexivity. Qed.

(** ** The catch-all branch *)

(** The one branch that guards its send: whatever the gateway does, and
    even without an administrator to write to, it returns. *)
Lemma unclassified_always_returns cfg gw update e w :
  classify e = Category.Unclassified →
  (error cfg gw update e w).1 = Returned ().
Proof.
  unfold classify, error. destruct (is_conflict e); [done|].
  destruct (err_class e); try done. intros _.
  unfold on_other, try_except_finally. run.
  destruct (admins cfg); run; [done|]. by destruct (gw _ _).
Qed.

(** C1.  Three failures on which the handler does not return but raises
    to its caller: a network failure whose best-effort reply fails, an
    invalid request whose operator alert fails, and a migration event
    whose update carries no message. *)
Theorem handler_raises :
  (error Sample.cfg replies_fail (Some Sample.upd100) Sample.timed_out
         Sample.fresh).1 = Raised TelegramError ∧
  (error Sample.cfg never_delivers None Sample.bad_request
         Sample.fresh).1 = Raised TelegramError ∧
  (error Sample.cfg always_delivers (Some Sample.upd_callback)
         Sample.migrated Sample.linked).1 = Raised AttributeError.
Proof. repeat split; vm_compute; reflexivity. Qed.

(** ** The migration branch *)

Lemma chat_id_to_str_inj channel : Inj (=) (=) (chat_id_to_str channel).
Proof.
  intros a b H. unfold chat_id_to_str, Str.of_int in H.
  apply (inj (String.app channel)) in H.
  apply (inj (String.app "#")) in H.
  by apply (inj pretty) in H.
Qed.

Lemma slaves_of_elem master_uid d s :
  s ∈ slaves_of master_uid d → d !! s = Some master_uid.
Proof.
  unfold slaves_of.
  intros [[s' m] [-> Hin]]%list_elem_of_fmap. cbn.
  apply elem_of_map_to_list, map_lookup_filter_Some in Hin as [Hs Hm].
  cbn in Hm. by subst.
Qed.

Lemma slaves_of_elem_iff master_uid d s :
  s ∈ slaves_of master_uid d ↔ d !! s = Some master_uid.
Proof.
  split; [apply slaves_of_elem|].
  intros Hs. unfold slaves_of.
  apply list_elem_of_fmap. exists (s, master_uid). split; [done|].
  apply elem_of_map_to_list, map_lookup_filter_Some. done.
Qed.

Lemma slaves_of_length master_uid d :
  Z.of_nat (length (slaves_of master_uid d)) = bound_to master_uid d.
Proof.
  unfold slaves_of, bound_to.
  by rewrite length_map, length_map_to_list.
Qed.

(** One row: removed, then recorded under the new master; the removal
    makes sure that [Put] has nothing to object to. *)
Lemma migrate_row_run cfg old_id new_id count i w :
  migrate_row cfg old_id new_id count i w =
    (Returned (count + 1),
     World (timeout_count w)
           (<[i := chat_id_to_str (channel_id cfg) new_id]> (db w))
           (logged w ++ [(DEBUG, Text.migrating i old_id new_id)])
           (outbox w)).
Proof.
  unfold migrate_row, remove_chat_assoc, add_chat_assoc. run.
  rewrite lookup_delete_eq. run. by rewrite insert_delete_eq.
Qed.

(** The loop of lines 278-282 over any list of slave refs. *)
Lemma migrate_loop_run cfg old_id new_id slaves count w :
  for_each slaves (migrate_row cfg old_id new_id) count w =
    (Returned (count + Z.of_nat (length slaves)),
     World (timeout_count w)
           (foldl (λ d i, <[i := chat_id_to_str (channel_id cfg) new_id]> d)
                  (db w) slaves)
           (logged w ++
              map (λ i, (DEBUG, Text.migrating i old_id new_id)) slaves)
           (outbox w)).
Proof.
  revert count w. induction slaves as [|i slaves IH]; intros count w.
  - cbn. unfold ret. rewrite Z.add_0_r, app_nil_r. by destruct w.
  - cbn [for_each]. unfold bind at 1. rewrite migrate_row_run, IH.
    cbn [timeout_count db logged outbox foldl length map].
    rewrite <- app_assoc. do 2 f_equal. lia.
Qed.

Lemma lookup_migrated (d : gmap string string) new_uid slaves s :
  foldl (λ d i, <[i := new_uid]> d) d slaves !! s =
    if decide (s ∈ slaves) then Some new_uid else d !! s.
Proof.
  revert d. induction slaves as [|i slaves IH]; intros d; cbn [foldl].
  - by rewrite decide_False by apply not_elem_of_nil.
  - rewrite IH. destruct (decide (s ∈ slaves)) as [Hin|Hnin].
    + by rewrite decide_True by (by right).
    + destruct (decide (s = i)) as [->|Hne].
      * rewrite decide_True by left. apply lookup_insert_eq.
      * rewrite decide_False by (by intros [?|?]%elem_of_cons).
        by apply lookup_insert_ne.
Qed.

(** The loop does to the store what the spec's [Migrate] says. *)
Lemma migrate_loop_db old_uid new_uid (d : gmap string string) :
  foldl (λ d i, <[i := new_uid]> d) d (slaves_of old_uid d) =
    rewrite_master old_uid new_uid d.
Proof.
  apply map_eq. intros s.
  rewrite lookup_migrated. unfold rewrite_master. rewrite lookup_fmap.
  destruct (decide (s ∈ _)) as [Hin|Hnin].
  - apply slaves_of_elem in Hin. rewrite Hin. cbn.
    by rewrite decide_True.
  - destruct (d !! s) as [m|] eqn:Hs; [|done]. cbn.
    rewrite decide_False; [done|]. intros ->.
    by apply Hnin, slaves_of_elem_iff.
Qed.

Lemma rewrite_master_none_left old_uid new_uid (d : gmap string string) :
  old_uid ≠ new_uid →
  filter (λ row : string * string, row.2 = old_uid)
         (rewrite_master old_uid new_uid d) = ∅.
Proof.
  intros Hne. apply map_empty. intros s.
  apply eq_None_not_Some. intros [m Hm].
  apply map_lookup_filter_Some in Hm as [Hm Hold]. cbn in Hold. subst m.
  unfold rewrite_master in Hm. rewrite lookup_fmap in Hm.
  destruct (d !! s) as [m|]; [|done]. cbn in Hm.
  destruct (decide (m = old_uid)); congruence.
Qed.

(** The migration branch on an update that carries a message. *)
Lemma on_chat_migrated_run cfg gw u m new_id w :
  message u = Some m →
  let old_uid := chat_id_to_str (channel_id cfg) (chat_id m) in
  let new_uid := chat_id_to_str (channel_id cfg) new_id in
  let slaves := slaves_of old_uid (db w) in
  let w' :=
    World (timeout_count w) (rewrite_master old_uid new_uid (db w))
          (logged w ++
             map (λ i, (DEBUG, Text.migrating i (chat_id m) new_id)) slaves)
          (outbox w ++
             [BotSend new_id
                (Text.migration_detected (bound_to old_uid (db w))) None]) in
  on_chat_migrated cfg gw (Some u) new_id w =
    (if gw (outbox w)
           (BotSend new_id
              (Text.migration_detected (bound_to old_uid (db w))) None)
     then Returned () else Raised TelegramError, w').
Proof.
  intros Hm. cbn zeta. unfold on_chat_migrated, update_message_chat_id.
  rewrite Hm. unfold bind at 1. unfold ret at 1.
  unfold bind at 1. unfold get_chat_assoc at 1.
  unfold bind at 1. rewrite migrate_loop_run.
  unfold gateway_send. cbn [timeout_count db logged outbox].
  rewrite migrate_loop_db, Z.add_0_l, slaves_of_length.
  by destruct (gw _ _).
Qed.

Lemma rewrite_master_lookup old_uid new_uid (d : gmap string string) s :
  rewrite_master old_uid new_uid d !! s =
    match d !! s with
    | Some m => Some (if decide (m = old_uid) then new_uid else m)
    | None => None
    end.
Proof. unfold rewrite_master. rewrite lookup_fmap. by destruct (d !! s). Qed.

Lemma rewrite_master_twice old_uid new_uid (d : gmap string string) :
  old_uid ≠ new_uid →
  rewrite_master old_uid new_uid (rewrite_master old_uid new_uid d) =
    rewrite_master old_uid new_uid d.
Proof.
  intros Hne. apply map_eq. intros s. rewrite !rewrite_master_lookup.
  destruct (d !! s) as [m|]; [|done]. f_equal.
  destruct (decide (m = old_uid)) as [->|Hm].
  - by rewrite decide_False.
  - by rewrite decide_False.
Qed.

Lemma bound_to_rewrite_master_old old_uid new_uid (d : gmap string string) :
  old_uid ≠ new_uid →
  bound_to old_uid (rewrite_master old_uid new_uid d) = 0.
Proof.
  intros Hne. unfold bound_to.
  by rewrite rewrite_master_none_left, map_size_empty.
Qed.

Lemma bound_to_rewrite_master_new old_uid new_uid (d : gmap string string) :
  old_uid ≠ new_uid →
  bound_to new_uid (rewrite_master old_uid new_uid d) =
    bound_to old_uid d + bound_to new_uid d.
Proof.
  intros Hne. unfold bound_to, rewrite_master.
  rewrite map_filter_fmap, map_size_fmap, <- Nat2Z.inj_add. f_equal.
  rewrite <- map_size_disj_union.
  - rewrite <- map_filter_or. f_equal. apply map_filter_ext.
    intros s m Hs. cbn.
    destruct (decide (m = old_uid));
      (split; [auto | intros [?|?]; congruence]).
  - apply map_disjoint_spec. intros s m1 m2.
    intros [Hs1 H1]%map_lookup_filter_Some [Hs2 H2]%map_lookup_filter_Some.
    cbn in *. congruence.
Qed.

Lemma classify_migrated e :
  classify e = Category.ConversationMigrated →
  ∃ new_id, err_class e = ChatMigrated new_id ∧
    ∀ cfg gw update, error cfg gw update e = on_chat_migrated cfg gw update new_id.
Proof.
  unfold classify, error. destruct (is_conflict e); [done|].
  destruct (err_class e) as [| | | |new_id|]; try done. intros _.
  by exists new_id.
Qed.

(** C3.  The same migration event handled twice in a row, for an update
    whose message sits in the old conversation and an identifier that did
    change, on any gateway.  The first handling rewrites every row whose
    master is the old ref to the new ref and sends the new conversation
    the confirmation [Chat migration detected.All remote chats (N) are
    now linked to this new group.] with the number [N] of rows that were
    bound to the old ref.  The second handling leaves the store as the
    first one left it and sends the same confirmation with the count 0.
    After both, every row that was bound to the old master is bound to
    the new one: no row is left with the old master, and the new master
    has gained [N] rows.  Neither handling is safe from raising, though:
    the send of line 283 is not guarded, so each handling returns if the
    gateway delivers its confirmation and raises the gateway's error to
    the caller if it does not. *)
Theorem migration_twice cfg gw u m new_id e w :
  classify e = Category.ConversationMigrated →
  err_class e = ChatMigrated new_id →
  message u = Some m →
  chat_id m ≠ new_id →
  let old_uid := chat_id_to_str (channel_id cfg) (chat_id m) in
  let new_uid := chat_id_to_str (channel_id cfg) new_id in
  let N := bound_to old_uid (db w) in
  let confirmation (count : Z) :=
    BotSend new_id
            ("Chat migration detected.All remote chats (" +:+
             Str.of_int count +:+ ") are now linked to this new group.")
            None in
  let first := error cfg gw (Some u) e w in
  let second := error cfg gw (Some u) e first.2 in
  (db first.2 = rewrite_master old_uid new_uid (db w) ∧
   outbox first.2 = outbox w ++ [confirmation N] ∧
   first.1 = if gw (outbox w) (confirmation N)
             then Returned () else Raised TelegramError) ∧
  (db second.2 = db first.2 ∧
   outbox second.2 =
     outbox first.2 ++
       [BotSend new_id
                ("Chat migration detected.All remote chats (0) " +:+
                 "are now linked to this new group.") None] ∧
   second.1 = if gw (outbox first.2) (confirmation 0)
              then Returned () else Raised TelegramError) ∧
  ((∀ slave, db w !! slave = Some old_uid →
             db second.2 !! slave = Some new_uid) ∧
   bound_to old_uid (db second.2) = 0 ∧
   bound_to new_uid (db second.2) = N + bound_to new_uid (db w)).
Proof.
  intros Hc He Hm Hid old_uid new_uid N confirmation.
  destruct (classify_migrated _ Hc) as (new_id' & He' & Herr).
  rewrite He in He'. injection He' as <-.
  assert (old_uid ≠ new_uid) as Hne.
  { intros Heq. by apply Hid, (chat_id_to_str_inj (channel_id cfg)). }
  assert (∀ count, BotSend new_id (Text.migration_detected count) None =
                   confirmation count) as Htext by reflexivity.
  rewrite !Herr. cbn zeta.
  rewrite (on_chat_migrated_run _ _ _ _ _ _ Hm).
  cbn [fst snd db outbox].
  rewrite (on_chat_migrated_run _ _ _ _ _ _ Hm).
  cbn [fst snd db outbox timeout_count logged].
  fold old_uid new_uid N.
  rewrite rewrite_master_twice, bound_to_rewrite_master_old by done.
  rewrite !Htext.
  repeat split.
  - intros slave Hs. rewrite rewrite_master_lookup, Hs.
    by rewrite decide_True.
  - by apply bound_to_rewrite_master_new.
Qed.

(** The group 100 with one linked chat migrates to 200, and the gateway
    refuses the confirmations: both handlings raise. *)
Lemma migration_twice_witness :
  let first := error Sample.cfg never_delivers (Some Sample.upd100)
                     Sample.migrated Sample.linked in
  let second := error Sample.cfg never_delivers (Some Sample.upd100)
                      Sample.migrated first.2 in
  (db first.2 =
     rewrite_master "telegram#100" "telegram#200" (db Sample.linked) ∧
   outbox first.2 =
     [BotSend 200
        ("Chat migration detected.All remote chats (1) " +:+
         "are now linked to this new group.") None] ∧
   first.1 = Raised TelegramError) ∧
  (db second.2 = db first.2 ∧
   outbox second.2 =
     outbox first.2 ++
       [BotSend 200
          ("Chat migration detected.All remote chats (0) " +:+
           "are now linked to this new group.") None] ∧
   second.1 = Raised TelegramError) ∧
  ((∀ slave, db Sample.linked !! slave = Some "telegram#100" →
             db second.2 !! slave = Some "telegram#200") ∧
   bound_to "telegram#100" (db second.2) = 0 ∧
   bound_to "telegram#200" (db second.2) =
     1 + bound_to "telegram#200" (db Sample.linked)).
Proof.
  apply (migration_twice Sample.cfg never_delivers Sample.upd100
           Sample.msg100 200 Sample.migrated Sample.linked).
  - vm_compute. reflexivity.
  - reflexivity.
  - reflexivity.
  - cbn. lia.
Defined.

(** The same two handlings, evaluated: the row is moved by the first
    one, and each of them raises after its attempt to confirm. *)
Example migration_refused_both_times :
  let first := error Sample.cfg never_delivers (Some Sample.upd100)
                     Sample.migrated Sample.linked in
  let second := error Sample.cfg never_delivers (Some Sample.upd100)
                      Sample.migrated first.2 in
  first.1 = Raised TelegramError ∧
  second.1 = Raised TelegramError ∧
  db first.2 = {[ "wechat#group1" := "telegram#200" ]} ∧
  db second.2 = {[ "wechat#group1" := "telegram#200" ]} ∧
  outbox second.2 =
    [BotSend 200
       ("Chat migration detected.All remote chats (1) " +:+
        "are now linked to this new group.") None;
     BotSend 200
       ("Chat migration detected.All remote chats (0) " +:+
        "are now linked to this new group.") None].
Proof. repeat split; vm_compute; reflexivity. Qed.

(** And on a gateway that delivers, both handlings return. *)
Example migration_delivered_both_times :
  let first := error Sample.cfg always_delivers (Some Sample.upd100)
                     Sample.migrated Sample.linked in
  let second := error Sample.cfg always_delivers (Some Sample.upd100)
                      Sample.migrated first.2 in
  first.1 = Returned () ∧
  second.1 = Returned () ∧
  db second.2 = {[ "wechat#group1" := "telegram#200" ]} ∧
  outbox second.2 =
    [BotSend 200
       ("Chat migration detected.All remote chats (1) " +:+
        "are now linked to this new group.") None;
     BotSend 200
       ("Chat migration detected.All remote chats (0) " +:+
        "are now linked to this new group.") None].
Proof. repeat split; vm_compute; reflexivity. Qed.

(** The end-to-end scenario of the spec: the group 100 with one linked
    chat migrates to 200. *)
Example migration_scenario :
  let w := (error Sample.cfg always_delivers (Some Sample.upd100)
                  Sample.migrated Sample.linked).2 in
  slaves_of "telegram#200" (db w) = ["wechat#group1"] ∧
  slaves_of "telegram#100" (db w) = [] ∧
  outbox w = [BotSend 200 (Text.migration_detected 1) None].
Proof. repeat split; vm_compute; reflexivity. Qed.

(** ** When the handler does return *)

(** With a gateway that delivers, a first administrator to write to and,
    for a migration event, an update that carries a message, every branch
    returns. *)
Lemma handler_returns_when_delivered cfg gw update e w a rest :
  delivers gw →
  admins cfg = a :: rest →
  (classify e = Category.ConversationMigrated →
   ∃ u m, update = Some u ∧ message u = Some m) →
  (error cfg gw update e w).1 = Returned ().
Proof.
  intros Hgw Ha Hmsg.
  destruct (classify e) eqn:Hc.
  - apply classify_conflict in Hc. unfold error. rewrite Hc.
    unfold on_conflict. run. rewrite Ha. run. by rewrite Hgw.
  - by rewrite unauthorized_returns.
  - revert Hc. unfold classify, error. destruct (is_conflict e); [done|].
    destruct (err_class e); try done. intros _.
    unfold on_bad_request. run. rewrite Ha. run. by rewrite Hgw.
  - rewrite (classify_network _ Hc). unfold on_network_error. run.
    destruct (reply_target update); run; rewrite ?Hgw; run;
      (destruct (_ && _); run; [|done]); rewrite Ha; run; by rewrite Hgw.
  - destruct (Hmsg eq_refl) as (u & m & -> & Hm).
    destruct (classify_migrated _ Hc) as (new_id & _ & ->).
    by rewrite (on_chat_migrated_run _ _ _ _ _ _ Hm), Hgw.
  - by apply unclassified_always_returns.
Qed.

(** ** One row, step by step *)

(** Counterexample to C4: while the one row of the sample store is
    migrated from 100 to 200, a reader does come across a world in which
    the row is neither the old one nor the new one. *)
Lemma migrate_row_not_atomic :
  ¬ Forall (λ w, find_by_slave "wechat#group1" w = Some "telegram#100" ∨
                 find_by_slave "wechat#group1" w = Some "telegram#200")
           (migrate_row_states Sample.cfg 100 200 "wechat#group1"
                               Sample.linked).
Proof.
  intros H.
  apply (proj1 (Forall_lookup _ _)) with (i := 2%nat)
    (x := (remove_chat_assoc "wechat#group1"
             (logger DEBUG (Text.migrating "wechat#group1" 100 200)
                     Sample.linked).2).2) in H; [|reflexivity].
  destruct H as [H|H]; vm_compute in H; discriminate.
Qed.

(** C4, as the code has it.  The migration of a row bound to the old
    master is two store operations, a removal and then an insertion: a
    reader sees the old row before the removal, no row between the two,
    and the new row after the insertion, which is the world the loop body
    ends in. *)
Theorem migrate_row_steps cfg old_id new_id count i w :
  db w !! i = Some (chat_id_to_str (channel_id cfg) old_id) →
  map (find_by_slave i) (migrate_row_states cfg old_id new_id i w) =
    [Some (chat_id_to_str (channel_id cfg) old_id);
     Some (chat_id_to_str (channel_id cfg) old_id);
     None;
     Some (chat_id_to_str (channel_id cfg) new_id)] ∧
  last (migrate_row_states cfg old_id new_id i w) =
    Some (migrate_row cfg old_id new_id count i w).2.
Proof.
  intros Hi. split.
  - unfold migrate_row_states, find_by_slave, remove_chat_assoc,
      add_chat_assoc, logger.
    cbn [map snd db timeout_count logged outbox].
    rewrite lookup_delete_eq. cbn [snd db].
    by rewrite Hi, lookup_insert_eq.
  - rewrite migrate_row_run.
    unfold migrate_row_states, remove_chat_assoc, add_chat_assoc, logger.
    cbn [last snd db timeout_count logged outbox].
    rewrite lookup_delete_eq. cbn [snd].
    by rewrite insert_delete_eq.
Qed.

Lemma migrate_row_steps_witness :
  map (find_by_slave "wechat#group1")
      (migrate_row_states Sample.cfg 100 200 "wechat#group1" Sample.linked) =
    [Some (chat_id_to_str (channel_id Sample.cfg) 100);
     Some (chat_id_to_str (channel_id Sample.cfg) 100);
     None;
     Some (chat_id_to_str (channel_id Sample.cfg) 200)] ∧
  last (migrate_row_states Sample.cfg 100 200 "wechat#group1" Sample.linked) =
    Some (migrate_row Sample.cfg 100 200 0 "wechat#group1" Sample.linked).2.
Proof.
  apply (migrate_row_steps Sample.cfg 100 200 0 "wechat#group1" Sample.linked).
  vm_compute. reflexivity.
Defined.


(** ** Configuration loading *)

Lemma converts_ok py s n :
  converts py s = Some n → str_isdigit py s = true ∧ int_of_str py s = Some n.
Proof. unfold converts. by destruct (str_isdigit py s). Qed.

Lemma admin_entry_ok_str py s :
  admin_entry_ok py (VStr s) = true ↔ ∃ n, converts py s = Some n.
Proof.
  unfold admin_entry_ok. cbn. rewrite bool_decide_eq_true.
  split; intros [n ?]; by exists n.
Qed.

Lemma normalize_entry_int py v :
  admin_entry_ok py v = true → isinstance_int (normalize_entry py v) = true.
Proof.
  destruct v as [| | | |s|]; try done.
  intros [n Hn]%admin_entry_ok_str. cbn. by rewrite Hn.
Qed.

Lemma normalize_entry_of_int py v :
  isinstance_int v = true → normalize_entry py v = v.
Proof. by destruct v. Qed.

Lemma check_admin_ok py la i (h : gmap positive object) items v :
  h !! la = Some (OList items) → items !! i = Some v →
  admin_entry_ok py v = true →
  check_admin py la i h =
    inr (<[la := OList (<[i := normalize_entry py v]> items)]> h).
Proof.
  intros Hla Hi Hok. unfold check_admin. rewrite Hla, Hi.
  assert (i < length items)%nat as Hlt by (by eapply lookup_lt_Some).
  destruct v as [|b|n|f|s|l]; try done.
  - cbn. rewrite Hla, Hi. cbn. by rewrite list_insert_id, insert_id.
  - cbn. rewrite Hla, Hi. cbn. by rewrite list_insert_id, insert_id.
  - apply admin_entry_ok_str in Hok as [n Hn].
    cbn [normalize_entry]. rewrite Hn.
    apply converts_ok in Hn as [-> ->].
    rewrite lookup_insert_eq, list_lookup_insert_eq by done. done.
Qed.

Lemma check_admin_bad py la i (h : gmap positive object) items v :
  h !! la = Some (OList items) → items !! i = Some v →
  admin_entry_ok py v = false →
  check_admin py la i h = inl (entry_error py v).
Proof.
  intros Hla Hi Hok. unfold check_admin. rewrite Hla, Hi.
  destruct v as [|b|n|f|s|l]; try done; try (by rewrite Hla, Hi).
  unfold entry_error. destruct (str_isdigit py s) eqn:Hd.
  - destruct (int_of_str py s) as [n|] eqn:Hn; [|done].
    exfalso. apply not_true_iff_false in Hok. apply Hok.
    apply admin_entry_ok_str. exists n. unfold converts. by rewrite Hd.
  - by rewrite Hla, Hi.
Qed.

(** The loop over the indices that are still to be visited: the entries
    before them are settled, the others are converted one by one, in
    place, until one of them is not accepted. *)
Lemma check_admins_from py la (pre rest : list value) :
  ∀ h : gmap positive object,
  h !! la = Some (OList (pre ++ rest)) →
  check_admins py la (seq (length pre) (length rest)) h =
    match List.find (λ v, negb (admin_entry_ok py v)) rest with
    | Some v => inl (entry_error py v)
    | None => inr (<[la := OList (pre ++ map (normalize_entry py) rest)]> h)
    end.
Proof.
  revert pre. induction rest as [|v rest IH]; intros pre h Hla.
  - cbn. by rewrite insert_id.
  - cbn [length seq check_admins List.find map].
    assert ((pre ++ v :: rest) !! length pre = Some v) as Hv.
    { by rewrite lookup_app_r, Nat.sub_diag by lia. }
    destruct (admin_entry_ok py v) eqn:Hok; cbn [negb].
    + rewrite (check_admin_ok _ _ _ _ _ _ Hla Hv Hok).
      replace (<[length pre := normalize_entry py v]> (pre ++ v :: rest))
        with ((pre ++ [normalize_entry py v]) ++ rest).
      2:{ rewrite insert_app_r_alt, Nat.sub_diag by lia.
          by rewrite <- app_assoc. }
      specialize (IH (pre ++ [normalize_entry py v])).
      rewrite length_app, Nat.add_1_r in IH.
      rewrite IH by apply lookup_insert_eq.
      destruct (List.find _ rest); [done|].
      by rewrite insert_insert_eq, <- app_assoc.
    + by rewrite (check_admin_bad _ _ _ _ _ _ Hla Hv Hok).
Qed.

Lemma check_admins_all py la items (h : gmap positive object) :
  h !! la = Some (OList items) →
  check_admins py la (seq 0 (length items)) h =
    match List.find (λ v, negb (admin_entry_ok py v)) items with
    | Some v => inl (entry_error py v)
    | None => inr (<[la := OList (map (normalize_entry py) items)]> h)
    end.
Proof. apply (check_admins_from py la [] items). Qed.

Lemma fresh_not_bound (h : gmap positive object) l o :
  h !! l = Some o → fresh (dom h) ≠ l.
Proof.
  intros Hl Heq. apply (is_fresh (dom h)). rewrite Heq.
  apply elem_of_dom. by eexists.
Qed.

Lemma as_dict_Some (h : gmap positive object) root r data :
  as_dict h root = Some (r, data) →
  root = VRef r ∧ h !! r = Some (ODict data).
Proof.
  destruct root as [| | | | |l]; try done. cbn.
  destruct (h !! l) as [[]|] eqn:Hl; try done. by intros [= <- <-].
Qed.

Lemma as_list_Some (h : gmap positive object) v la items :
  as_list h v = Some (la, items) →
  v = VRef la ∧ h !! la = Some (OList items).
Proof.
  destruct v as [| | | | |l]; try done. cbn.
  destruct (h !! l) as [[]|] eqn:Hl; try done. by intros [= <- <-].
Qed.

(** A new one-element list of an accepted entry goes through the loop. *)
Lemma load_single py (h : gmap positive object) r (data : gmap string value) v :
  admin_entry_ok py v = true → isinstance_int v = true →
  let l := fresh (dom h) in
  let data' := <["admins" := VRef l]> data in
  let h' := <[l := OList [v]]> h in
  match data' !! "admins" with
  | Some v' =>
      match as_list h' v' with
      | Some (la, items) =>
          if (length items <? 1)%nat
          then inl (ValueError ConfigText.admins_must_be_list None)
          else
            match check_admins py la (seq 0 (length items)) h' with
            | inl e => inl e
            | inr h3 => inr (data', <[r := ODict data']> h3)
            end
      | None => inl (ValueError ConfigText.admins_must_be_list None)
      end
  | None => inl (ValueError ConfigText.admins_must_be_list None)
  end = inr (data', <[r := ODict data']> h').
Proof.
  intros Hok Hint. cbn zeta. rewrite lookup_insert_eq. cbn [as_list].
  rewrite lookup_insert_eq. cbn [length Nat.ltb Nat.leb].
  rewrite (check_admins_all py _ [v]) by apply lookup_insert_eq.
  cbn [List.find]. rewrite Hok. cbn [negb map].
  by rewrite (normalize_entry_of_int _ _ Hint), insert_insert_eq.
Qed.

(** [load_config] in one piece, for a document that is a mapping: the
    token test, then the three shapes of [admins], then the loop. *)
Lemma load_config_unfold py root (h : gmap positive object) r data :
  as_dict h root = Some (r, data) →
  load_config py root h =
    if token_is_string data then
      match data !! "admins" with
      | Some (VStr s) =>
          if str_isdigit py s then
            match int_of_str py s with
            | Some n =>
                inr (<["admins" := VRef (fresh (dom h))]> data,
                     <[r := ODict (<["admins" := VRef (fresh (dom h))]> data)]>
                       (<[fresh (dom h) := OList [VInt n]]> h))
            | None =>
                inl (ValueError ConfigText.invalid_literal (Some (VStr s)))
            end
          else inl (ValueError ConfigText.admins_must_be_list None)
      | Some v =>
          if isinstance_int v then
            inr (<["admins" := VRef (fresh (dom h))]> data,
                 <[r := ODict (<["admins" := VRef (fresh (dom h))]> data)]>
                   (<[fresh (dom h) := OList [v]]> h))
          else
            match as_list h v with
            | Some (la, item :: items) =>
                match List.find (λ v, negb (admin_entry_ok py v))
                                (item :: items) with
                | Some bad => inl (entry_error py bad)
                | None =>
                    inr (data,
                         <[r := ODict data]>
                           (<[la := OList (map (normalize_entry py)
                                               (item :: items))]> h))
                end
            | _ => inl (ValueError ConfigText.admins_must_be_list None)
            end
      | None => inl (ValueError ConfigText.admins_must_be_list None)
      end
    else inl (ValueError ConfigText.token_must_be_string None).
Proof.
  intros Hroot. unfold load_config, token_is_string. rewrite Hroot.
  destruct (data !! "token") as [[| | | |tok|]|]; try done.
  unfold wrap_single.
  destruct (data !! "admins") as [v|] eqn:Ha; [|by rewrite !Ha].
  destruct v as [|b|n|f|s|l]; cbn [isinstance_int].
  - by rewrite !Ha.
  - rewrite lookup_insert_eq. by apply load_single.
  - rewrite lookup_insert_eq. by apply load_single.
  - by rewrite !Ha.
  - rewrite Ha. destruct (str_isdigit py s); [|by rewrite Ha].
    destruct (int_of_str py s) as [n|]; [|done].
    by apply load_single.
  - rewrite !Ha.
    destruct (as_list h (VRef l)) as [[la items]|] eqn:Hl; [|done].
    apply as_list_Some in Hl as [_ Hl].
    rewrite (check_admins_all _ _ _ _ Hl).
    destruct items as [|v items]; [done|].
    change (length (v :: items) <? 1)%nat with false. cbn match.
    by destruct (List.find _ _).
Qed.


Lemma find_bad_none py (l : list value) :
  forallb (admin_entry_ok py) l = true ↔
  List.find (λ v, negb (admin_entry_ok py v)) l = None.
Proof.
  induction l as [|v l IH]; [done|]. cbn.
  destruct (admin_entry_ok py v); cbn; [done|]. by split.
Qed.

Lemma find_bad_some py (l : list value) v :
  v ∈ l → admin_entry_ok py v = false →
  ∃ v', List.find (λ v, negb (admin_entry_ok py v)) l = Some v'.
Proof.
  intros Hin Hv. destruct (List.find _ l) as [v'|] eqn:Hf; [by exists v'|].
  apply list_elem_of_In in Hin.
  pose proof (List.find_none _ _ Hf v Hin) as Hn. cbn in Hn.
  by rewrite Hv in Hn.
Qed.

Lemma admin_entry_ok_int py v :
  isinstance_int v = true → admin_entry_ok py v = true.
Proof. unfold admin_entry_ok. by intros ->. Qed.

Lemma map_normalize_ints py (l : list value) :
  forallb isinstance_int l = true → map (normalize_entry py) l = l.
Proof.
  induction l as [|v l IH]; [done|]. cbn.
  intros [Hv Hl]%andb_prop.
  by rewrite (normalize_entry_of_int _ _ Hv), IH.
Qed.

Lemma normalized_ints py (l : list value) :
  forallb (admin_entry_ok py) l = true →
  forallb isinstance_int (map (normalize_entry py) l) = true.
Proof.
  induction l as [|v l IH]; [done|]. cbn.
  intros [Hv Hl]%andb_prop.
  by rewrite (normalize_entry_int _ _ Hv), IH.
Qed.

(** The shape of every successful load: the token is a string, [admins]
    normalises to a non-empty list of accepted entries, the configuration
    binds [admins] to a list object that holds their converted values,
    and the heap differs from the one read in that list object and in
    the dictionary of the document. *)
Lemma load_config_success py root (h : gmap positive object) conf h1 :
  load_config py root h = inr (conf, h1) →
  ∃ r data l0 la,
    as_dict h root = Some (r, data) ∧
    token_is_string data = true ∧
    normalized_admins py h data = Some l0 ∧
    l0 ≠ [] ∧
    forallb (admin_entry_ok py) l0 = true ∧
    conf = <["admins" := VRef la]> data ∧
    h1 = <[r := ODict conf]>
           (<[la := OList (map (normalize_entry py) l0)]> h) ∧
    la ≠ r.
Proof.
  intros Hload.
  destruct (as_dict h root) as [[r data]|] eqn:Hroot;
    [|by unfold load_config in Hload; rewrite Hroot in Hload].
  rewrite (load_config_unfold _ _ _ _ _ Hroot) in Hload.
  destruct (as_dict_Some _ _ _ _ Hroot) as [-> Hr].
  destruct (token_is_string data) eqn:Ht; [|done].
  destruct (data !! "admins") as [v|] eqn:Ha; [|done].
  assert (∀ v0, isinstance_int v0 = true →
    normalized_admins py h data = Some [v0] →
    conf = <["admins" := VRef (fresh (dom h))]> data →
    h1 = <[r := ODict conf]> (<[fresh (dom h) := OList [v0]]> h) →
    ∃ r0 data0 l0 la,
      Some (r, data) = Some (r0, data0) ∧ token_is_string data0 = true ∧
      normalized_admins py h data0 = Some l0 ∧ l0 ≠ [] ∧
      forallb (admin_entry_ok py) l0 = true ∧
      conf = <["admins" := VRef la]> data0 ∧
      h1 = <[r0 := ODict conf]>
             (<[la := OList (map (normalize_entry py) l0)]> h) ∧
      la ≠ r0) as Hsingle.
  { intros v0 Hv0 Hn -> ->. exists r, data, [v0], (fresh (dom h)).
    cbn [map forallb].
    rewrite (normalize_entry_of_int _ _ Hv0), (admin_entry_ok_int _ _ Hv0).
    repeat split; try done. by eapply fresh_not_bound. }
  destruct v as [|b|n|f|s|l]; cbn [isinstance_int] in Hload; try done.
  - injection Hload as <- <-. apply (Hsingle (VBool b)); try done.
    unfold normalized_admins. by rewrite Ha.
  - injection Hload as <- <-. apply (Hsingle (VInt n)); try done.
    unfold normalized_admins. by rewrite Ha.
  - destruct (str_isdigit py s) eqn:Hd; [|done].
    destruct (int_of_str py s) as [n|] eqn:Hn; [|done].
    injection Hload as <- <-. apply (Hsingle (VInt n)); try done.
    unfold normalized_admins, converts. by rewrite Ha, Hd, Hn.
  - destruct (as_list h (VRef l)) as [[la [|item items]]|] eqn:Hl; try done.
    destruct (List.find _ _) eqn:Hf; [done|]. injection Hload as <- <-.
    apply as_list_Some in Hl as [[= <-] Hl].
    exists r, data, (item :: items), l.
    rewrite (insert_id data "admins") by done.
    repeat split; try done.
    + unfold normalized_admins. rewrite Ha. cbn. by rewrite Hl.
    + by apply find_bad_none.
    + intros ->. rewrite Hl in Hr. done.
Qed.



(** *** Digit strings and the numbers they spell *)

Lemma string_app_assoc s1 s2 s3 : (s1 +:+ s2) +:+ s3 = s1 +:+ s2 +:+ s3.
Proof.
  induction s1 as [|c s1 IH]; [done|]. rewrite !app_cons. by rewrite IH.
Qed.

Lemma int_acc_app acc s1 s2 :
  Str.int_acc acc (s1 +:+ s2) = Str.int_acc (Str.int_acc acc s1) s2.
Proof.
  revert acc. induction s1 as [|c s1 IH]; intros acc; [done|].
  rewrite app_cons. cbn [Str.int_acc]. apply IH.
Qed.

Lemma all_digits_app s1 s2 :
  Str.all_digits (s1 +:+ s2) = Str.all_digits s1 && Str.all_digits s2.
Proof.
  induction s1 as [|c s1 IH]; [done|].
  rewrite app_cons. cbn [Str.all_digits]. by rewrite IH, andb_assoc.
Qed.

Lemma pretty_N_char_digit d :
  (d < 10)%N →
  Str.is_digit_char (pretty_N_char d) = true ∧
  Z.of_N (Ascii.N_of_ascii (pretty_N_char d)) - 48 = Z.of_N d.
Proof.
  intros Hd.
  assert (d = 0 ∨ d = 1 ∨ d = 2 ∨ d = 3 ∨ d = 4 ∨ d = 5 ∨ d = 6 ∨ d = 7
          ∨ d = 8 ∨ d = 9)%N as Hcases by lia.
  repeat (destruct Hcases as [->|Hcases]; [by vm_compute|]).
  subst. by vm_compute.
Qed.

Lemma pretty_N_go_app x s :
  pretty_N_go x s = pretty_N_go x "" +:+ s.
Proof.
  revert s. induction (N.lt_wf_0 x) as [x _ IH]; intros s.
  destruct (decide (x = 0)%N) as [->|Hx].
  - by rewrite !pretty_N_go_0.
  - assert (x `div` 10 < x)%N as Hlt by (apply N.div_lt; lia).
    rewrite !(pretty_N_go_step x) by lia.
    rewrite (IH _ Hlt (String _ s)), (IH _ Hlt (String _ "")).
    by rewrite string_app_assoc.
Qed.

Lemma pretty_N_go_digits x :
  Str.all_digits (pretty_N_go x "") = true ∧
  Str.int_acc 0 (pretty_N_go x "") = Z.of_N x.
Proof.
  induction (N.lt_wf_0 x) as [x _ IH].
  destruct (decide (x = 0)%N) as [->|Hx]; [done|].
  rewrite pretty_N_go_step, pretty_N_go_app by lia.
  destruct (IH (x `div` 10)%N) as [IHd IHv]; [apply N.div_lt; lia|].
  destruct (pretty_N_char_digit (x `mod` 10)%N) as [Hd Hv].
  { apply N.mod_lt. lia. }
  split.
  - rewrite all_digits_app, IHd. cbn. by rewrite Hd.
  - rewrite int_acc_app, IHv. cbn [Str.int_acc]. rewrite Hv.
    rewrite (N.div_mod x 10) at 3 by lia. lia.
Qed.

Lemma pretty_N_go_nonempty x : (0 < x)%N → pretty_N_go x "" ≠ "".
Proof.
  intros Hx. rewrite pretty_N_go_step, pretty_N_go_app by done.
  by destruct (pretty_N_go _ "").
Qed.

(** [str(n)] is a string of ASCII digits exactly for the numbers that
    are not negative, and then it spells [n]; for a negative number it
    has the sign in it. *)
Lemma int_of_int n :
  Str.ascii_digits (Str.of_int n) = (0 <=? n) ∧
  (0 ≤ n → Str.decimal_value (Str.of_int n) = n) ∧
  (n < 0 → Str.has_ascii_nondigit (Str.of_int n) = true).
Proof.
  unfold Str.of_int, pretty, pretty_Z, Str.decimal_value.
  destruct n as [|p|p].
  - by vm_compute.
  - unfold pretty, pretty_positive, pretty, pretty_N.
    rewrite decide_False by done.
    destruct (pretty_N_go_digits (N.pos p)) as [Hd Hv].
    pose proof (pretty_N_go_nonempty (N.pos p) ltac:(lia)) as Hne.
    split; [|split; [done|lia]]. unfold Str.ascii_digits.
    by destruct (pretty_N_go (N.pos p) "").
  - split; [|split; [lia|]].
    + unfold pretty, pretty_positive. by rewrite app_cons.
    + intros _. unfold pretty, pretty_positive. by rewrite app_cons.
Qed.



(** A configuration that [load_config] lets through has a first
    administrator for the handler to write to. *)
Lemma loaded_admins_nonempty py root (h : gmap positive object) res :
  load_config py root h = inr res → ∃ a rest, loaded_admins res = a :: rest.
Proof.
  destruct res as [conf h1].
  intros (r & data & l0 & la & _ & _ & _ & Hne & Hok & -> & -> & Hla)
    %load_config_success.
  unfold loaded_admins, config_admins. cbn [fst snd].
  rewrite lookup_insert_eq. cbn [as_list].
  rewrite lookup_insert_ne, lookup_insert_eq by done. cbn.
  destruct l0 as [|v l0]; [done|]. cbn in Hok.
  apply andb_prop in Hok as [Hv _].
  apply normalize_entry_int in Hv. cbn [map omap].
  destruct (normalize_entry py v); try done; cbn; eauto.
Qed.




(** The docstring's example, one ID quoted: both IDs come out as
    integers. *)
Example load_config_docstring :
  sum_map id config_admins
          (load_config Excerpt.python (VRef 1) ConfigSample.docstring)
  = inr (Some [VInt 102938475; VInt 91827364]).
Proof. vm_compute. reflexivity. Qed.

(** Digits of another script are digits to [isdigit] and to [int]. *)
Example load_config_arabic_digits :
  sum_map id config_admins
          (load_config Excerpt.python (VRef 1)
                       (ConfigSample.list_of [VStr Excerpt.arabic_123]))
  = inr (Some [VInt 123]).
Proof. vm_compute. reflexivity. Qed.

(** The superscript two passes [isdigit], and [int] refuses it. *)
Example load_config_superscript :
  load_config Excerpt.python (VRef 1)
              (ConfigSample.with_admins (VStr Excerpt.superscript_two))
  = inl (ValueError ConfigText.invalid_literal
                    (Some (VStr Excerpt.superscript_two))).
Proof. vm_compute. reflexivity. Qed.

Example load_config_leading_zeros :
  sum_map id config_admins
          (load_config Excerpt.python (VRef 1)
                       (ConfigSample.with_admins (VStr "0042")))
  = inr (Some [VInt 42]).
Proof. vm_compute. reflexivity. Qed.

Example load_config_negative_string :
  load_config Excerpt.python (VRef 1) (ConfigSample.list_of [VStr "-5"])
  = inl (ValueError ConfigText.admin_id_expected (Some (VStr "-5"))).
Proof. vm_compute. reflexivity. Qed.

Example load_config_no_admins :
  load_config Excerpt.python (VRef 1) (ConfigSample.list_of [])
  = inl (ValueError ConfigText.admins_must_be_list None).
Proof. vm_compute. reflexivity. Qed.

Example load_config_numeric_token :
  load_config Excerpt.python (VRef 1)
              {[ 1%positive :=
                   ODict {[ "token" := VInt 12345678; "admins" := VInt 1 ]} ]}
  = inl (ValueError ConfigText.token_must_be_string None).
Proof. vm_compute. reflexivity. Qed.

(** A key that is an alias of the admins list sees the conversion. *)
Example load_config_aliased :
  match load_config Excerpt.python (VRef 1) ConfigSample.aliased with
  | inr (conf, h1) =>
      conf !! "operators" = Some (VRef 2) ∧
      h1 !! 2%positive = Some (OList [VInt 7; VInt 8])
  | inl _ => False
  end.
Proof. vm_compute. split; reflexivity. Qed.

(** *** The excerpt reads ASCII decimals *)

Lemma excerpt_digits_ascii s :
  Str.all_digits s = true →
  ∃ ds, Excerpt.digits s = Some ds ∧
        (s ≠ "" → ds ≠ []) ∧
        ∀ acc, Excerpt.value_acc acc ds = Some (Str.int_acc acc s).
Proof.
  induction s as [|c s IH]; [by exists []|].
  cbn [Str.all_digits]. intros [Hc Hs]%andb_prop.
  destruct (IH Hs) as (ds & Hds & _ & Hv).
  exists (Some (Z.of_N (Ascii.N_of_ascii c) - 48) :: ds).
  cbn [Excerpt.digits]. rewrite Hc, Hds. repeat split; [done|].
  intros acc. cbn. apply Hv.
Qed.

Lemma excerpt_digits_nondigit n :
  ∀ s, (String.length s ≤ n)%nat →
       Str.has_ascii_nondigit s = true → Excerpt.digits s = None.
Proof.
  induction n as [|n IH]; intros [|c s] Hlen; try done; [cbn in Hlen; lia|].
  cbn [Str.has_ascii_nondigit Excerpt.digits]. cbn in Hlen.
  destruct (Str.is_digit_char c) eqn:Hc.
  - rewrite andb_false_r. cbn. intros Hs. rewrite (IH s); [done|lia|done].
  - rewrite andb_true_r. destruct s as [|c2 s]; [done|].
    cbn [Str.has_ascii_nondigit String.length] in *.
    set (k := Z.of_N (Ascii.N_of_ascii c)).
    set (k2 := Z.of_N (Ascii.N_of_ascii c2)).
    assert (∀ a : ascii, 128 ≤ Z.of_N (Ascii.N_of_ascii a) →
            (Ascii.N_of_ascii a <? 128)%N = false) as Hhigh
      by (intros a Ha; apply N.ltb_ge; lia).
    destruct ((k =? 217) && (160 <=? k2) && (k2 <=? 169)) eqn:H1.
    + apply andb_prop in H1 as [[Hk%Z.eqb_eq Hl%Z.leb_le]%andb_prop _].
      rewrite (Hhigh c), (Hhigh c2) by (fold k k2; lia).
      cbn. intros Hs. rewrite (IH s); [done|lia|done].
    + destruct ((k =? 194) && ((k2 =? 178) || (k2 =? 179) || (k2 =? 185)))
        eqn:H2; [|done].
      apply andb_prop in H2 as [Hk%Z.eqb_eq Hl].
      assert (k2 = 178 ∨ k2 = 179 ∨ k2 = 185) as Hk2.
      { repeat (apply orb_prop in Hl as [Hl|Hl]);
          apply Z.eqb_eq in Hl; auto. }
      rewrite (Hhigh c), (Hhigh c2) by (fold k k2; lia).
      cbn. intros Hs. rewrite (IH s); [done|lia|done].
Qed.

Lemma excerpt_reads_ascii_decimals : reads_ascii_decimals Excerpt.python.
Proof.
  split.
  - intros s Hs. unfold Str.ascii_digits in Hs.
    destruct s as [|c s]; [done|].
    destruct (excerpt_digits_ascii _ Hs) as (ds & Hds & Hne & Hv).
    cbn [str_isdigit int_of_str Excerpt.python].
    unfold Excerpt.isdigit, Excerpt.int. rewrite Hds.
    destruct ds as [|d ds]; [by destruct Hne|].
    split; [done|]. apply Hv.
  - intros s Hs. cbn [str_isdigit Excerpt.python]. unfold Excerpt.isdigit.
    by rewrite (excerpt_digits_nondigit (String.length s) s).
Qed.

(** * Further properties of the code *)

(** ** More on configuration loading *)

(** X1.  Loading is idempotent: the dictionary of the document carries
    the configuration after a load, and [load_config] on it, or on any
    dictionary with the entries of the configuration (such as the copy
    kept in [self.config]), accepts it as it is and changes nothing. *)
Theorem load_config_idempotent py root (h : gmap positive object) conf h1 :
  load_config py root h = inr (conf, h1) →
  (∃ r, as_dict h1 root = Some (r, conf)) ∧
  ∀ root' c, as_dict h1 root' = Some (c, conf) →
             load_config py root' h1 = inr (conf, h1).
Proof.
  intros (r & data & l0 & la & Hroot & Ht & Hn & Hne & Hok & Hconf & Hh1 & Hla)
    %load_config_success.
  apply as_dict_Some in Hroot as [-> Hr].
  assert (h1 !! la = Some (OList (map (normalize_entry py) l0))) as Hlist.
  { rewrite Hh1. by rewrite lookup_insert_ne, lookup_insert_eq. }
  split.
  - exists r. cbn. by rewrite Hh1, lookup_insert_eq.
  - intros root' c Hroot'.
    rewrite (load_config_unfold _ _ _ _ _ Hroot').
    apply as_dict_Some in Hroot' as [-> Hc].
    assert (token_is_string conf = true) as ->.
    { rewrite Hconf. unfold token_is_string in *.
      by rewrite lookup_insert_ne. }
    assert (conf !! "admins" = Some (VRef la)) as ->
      by (by rewrite Hconf, lookup_insert_eq).
    cbn [isinstance_int as_list]. rewrite Hlist.
    pose proof (normalized_ints _ _ Hok) as Hints.
    assert (map (normalize_entry py) l0 ≠ []) as Hne' by (by destruct l0).
    revert Hlist Hints Hne'.
    generalize (map (normalize_entry py) l0). intros ids Hlist Hints Hne'.
    destruct ids as [|i ids]; [done|]. cbv iota beta.
    assert (forallb (admin_entry_ok py) (i :: ids) = true) as Hok2.
    { apply forallb_forall. intros x Hx. apply admin_entry_ok_int.
      by apply (proj1 (forallb_forall _ _) Hints). }
    apply find_bad_none in Hok2. rewrite Hok2.
    rewrite (map_normalize_ints _ _ Hints).
    by rewrite (insert_id h1 la), (insert_id h1 c).
Qed.

Lemma load_config_idempotent_witness :
  let h := ConfigSample.with_admins (VStr "0042") in
  let conf : gmap string value :=
    {[ "token" := VStr "t"; "admins" := VRef (fresh (dom h)) ]} in
  let h1 : gmap positive object :=
    {[ 1%positive := ODict conf; fresh (dom h) := OList [VInt 42] ]} in
  load_config Excerpt.python (VRef 1) h = inr (conf, h1) ∧
  load_config Excerpt.python (VRef 1) h1 = inr (conf, h1).
Proof.
  cbn zeta.
  assert (load_config Excerpt.python (VRef 1)
            (ConfigSample.with_admins (VStr "0042")) =
          inr ({[ "token" := VStr "t";
                  "admins" :=
                    VRef (fresh (dom (ConfigSample.with_admins
                                        (VStr "0042")))) ]},
               {[ 1%positive :=
                    ODict {[ "token" := VStr "t";
                             "admins" :=
                               VRef (fresh (dom (ConfigSample.with_admins
                                                   (VStr "0042")))) ]};
                  fresh (dom (ConfigSample.with_admins (VStr "0042"))) :=
                    OList [VInt 42] ]})) as Hload
    by (vm_compute; reflexivity).
  split; [exact Hload|].
  apply (proj2 (load_config_idempotent _ _ _ _ _ Hload) (VRef 1) 1%positive).
  vm_compute. reflexivity.
Defined.

(** X2.  What [load_config] accepts, it hands back with every key but
    [admins] as it was read, and with [admins] bound to a list object
    that holds integers only, is not empty and has one entry for each
    entry of the list the field normalised to.  That list object is
    either new or the very list of the document, converted in place: a
    key of the document that is an alias of the [admins] list therefore
    sees the converted entries.  The dictionary of the document carries
    the configuration, and every other object is as it was. *)
Theorem load_config_result py root (h : gmap positive object) r data conf h1 :
  as_dict h root = Some (r, data) →
  load_config py root h = inr (conf, h1) →
  (∀ k, k ≠ "admins" → conf !! k = data !! k) ∧
  ∃ la l ids,
    conf !! "admins" = Some (VRef la) ∧
    h1 !! la = Some (OList ids) ∧
    normalized_admins py h data = Some l ∧
    ids = map (normalize_entry py) l ∧
    length ids = length l ∧ ids ≠ [] ∧
    forallb isinstance_int ids = true ∧
    h1 !! r = Some (ODict conf) ∧
    (h !! la = None ∨
     (data !! "admins" = Some (VRef la) ∧ h !! la = Some (OList l))) ∧
    ∀ l', l' ≠ r → l' ≠ la → h1 !! l' = h !! l'.
Proof.
  intros Hroot Hload.
  pose proof Hload as Hunf.
  rewrite (load_config_unfold _ _ _ _ _ Hroot) in Hunf.
  apply load_config_success in Hload
    as (r' & data' & l0 & la & Hroot' & Ht & Hn & Hne & Hok & Hconf & Hh1 & Hla).
  rewrite Hroot in Hroot'. injection Hroot' as <- <-.
  split; [intros k Hk; by rewrite Hconf, lookup_insert_ne|].
  exists la, l0, (map (normalize_entry py) l0).
  rewrite length_map.
  assert (h1 !! la = Some (OList (map (normalize_entry py) l0))) as Hlist
    by (by rewrite Hh1, lookup_insert_ne, lookup_insert_eq).
  repeat split; try done.
  - by rewrite Hconf, lookup_insert_eq.
  - by destruct l0.
  - by apply normalized_ints.
  - by rewrite Hh1, lookup_insert_eq.
  - rewrite Ht in Hunf.
    assert (conf = <["admins" := VRef (fresh (dom h))]> data →
                 h !! la = None ∨
                 (data !! "admins" = Some (VRef la) ∧
                  h !! la = Some (OList l0))) as Hnew.
    { intros Hc. left. rewrite Hconf in Hc.
      assert (Some (VRef la) = Some (VRef (fresh (dom h)))) as [= ->].
      { rewrite <- (lookup_insert_eq data "admins" (VRef la)), Hc.
        by rewrite lookup_insert_eq. }
      apply not_elem_of_dom, is_fresh. }
    unfold normalized_admins in Hn.
    destruct (data !! "admins") as [v|] eqn:Ha; [|done].
    destruct v as [|b|n|f|s|l]; cbn [isinstance_int] in *; try done.
    + injection Hunf as Hc _. by apply Hnew.
    + injection Hunf as Hc _. by apply Hnew.
    + destruct (str_isdigit py s); [|done].
      destruct (int_of_str py s); [|done].
      injection Hunf as Hc _. by apply Hnew.
    + destruct (as_list h (VRef l)) as [[la' items]|] eqn:Hl; [|done].
      apply as_list_Some in Hl as [[= <-] Hl].
      cbn in Hn. injection Hn as ->.
      destruct l0 as [|item items]; [done|].
      destruct (List.find _ _); [done|].
      injection Hunf as Hc _. right.
      assert (Some (VRef la) = Some (VRef l)) as [= ->]; [|done].
      rewrite <- (lookup_insert_eq data "admins" (VRef la)), <- Hconf, <- Hc.
      done.
  - intros l' Hr' Hl'. by rewrite Hh1, !lookup_insert_ne.
Qed.

Lemma load_config_result_witness :
  ∃ conf h1,
    load_config Excerpt.python (VRef 1) ConfigSample.aliased
      = inr (conf, h1) ∧
    conf !! "operators" = Some (VRef 2) ∧
    ∃ la l ids,
      conf !! "admins" = Some (VRef la) ∧
      h1 !! la = Some (OList ids) ∧
      normalized_admins Excerpt.python ConfigSample.aliased
        {[ "token" := VStr "t"; "admins" := VRef 2;
           "operators" := VRef 2 ]} = Some l ∧
      ids = map (normalize_entry Excerpt.python) l ∧
      length ids = length l ∧ ids ≠ [] ∧
      forallb isinstance_int ids = true ∧
      h1 !! 1%positive = Some (ODict conf) ∧
      (ConfigSample.aliased !! la = None ∨
       (({[ "token" := VStr "t"; "admins" := VRef 2;
            "operators" := VRef 2 ]} : gmap string value) !! "admins"
          = Some (VRef la) ∧
        ConfigSample.aliased !! la = Some (OList l))) ∧
      ∀ l', l' ≠ 1%positive → l' ≠ la →
            h1 !! l' = ConfigSample.aliased !! l'.
Proof.
  destruct (load_config Excerpt.python (VRef 1) ConfigSample.aliased)
    as [e|[conf h1]] eqn:Hload; [by vm_compute in Hload|].
  exists conf, h1. split; [done|].
  destruct (load_config_result Excerpt.python (VRef 1) ConfigSample.aliased
              1%positive
              {[ "token" := VStr "t"; "admins" := VRef 2;
                 "operators" := VRef 2 ]} conf h1 eq_refl Hload)
    as [Hkeys Hrest].
  split; [|exact Hrest].
  rewrite Hkeys by done. vm_compute. reflexivity.
Defined.


(** X3.  An administrator given as a string of ASCII digits is read as
    the number it spells, whatever else the built-ins accept: with a
    string token and [admins] the decimal string of [n], the
    configuration loads with a new list of the one administrator [n]
    when [n] is not negative, and is refused as not being a list when
    [n] is negative, the sign being no digit. *)
Theorem load_config_decimal_admin py root (h : gmap positive object) r data n :
  reads_ascii_decimals py →
  as_dict h root = Some (r, data) →
  token_is_string data = true →
  data !! "admins" = Some (VStr (Str.of_int n)) →
  load_config py root h =
    if 0 <=? n
    then
      let conf := <["admins" := VRef (fresh (dom h))]> data in
      inr (conf, <[r := ODict conf]> (<[fresh (dom h) := OList [VInt n]]> h))
    else inl (ValueError ConfigText.admins_must_be_list None).
Proof.
  intros [Hdigits Hnon] Hroot Ht Ha.
  rewrite (load_config_unfold _ _ _ _ _ Hroot), Ht, Ha.
  destruct (int_of_int n) as (Hd & Hv & Hneg).
  destruct (Z.leb_spec 0 n) as [Hn|Hn].
  - destruct (Hdigits _ Hd) as [-> ->]. by rewrite (Hv Hn).
  - by rewrite (Hnon _ (Hneg Hn)).
Qed.

Lemma load_config_decimal_admin_witness :
  let h := ConfigSample.with_admins (VStr (Str.of_int 102938475)) in
  let data : gmap string value :=
    {[ "token" := VStr "t"; "admins" := VStr (Str.of_int 102938475) ]} in
  load_config Excerpt.python (VRef 1) h =
    if 0 <=? 102938475
    then
      let conf := <["admins" := VRef (fresh (dom h))]> data in
      inr (conf,
           <[1%positive := ODict conf]>
             (<[fresh (dom h) := OList [VInt 102938475]]> h))
    else inl (ValueError ConfigText.admins_must_be_list None).
Proof.
  cbn zeta.
  apply (load_config_decimal_admin Excerpt.python (VRef 1) _ 1%positive
           {[ "token" := VStr "t";
              "admins" := VStr (Str.of_int 102938475) ]} 102938475
           excerpt_reads_ascii_decimals);
    vm_compute; reflexivity.
Defined.



(** A list entry that passes [isdigit] and is refused by [int] ends the
    load with the error of [int]. *)
Example load_config_superscript_entry :
  load_config Excerpt.python (VRef 1)
    (ConfigSample.list_of [VInt 1; VStr Excerpt.superscript_two]) =
    inl (ValueError ConfigText.invalid_literal
                    (Some (VStr Excerpt.superscript_two))).
Proof. vm_compute. reflexivity. Qed.

(** ** The counter *)

Lemma keeps_counter_bind {A B} (m : M A) (k : A → M B) :
  keeps_counter m → (∀ a, keeps_counter (k a)) → keeps_counter (bind m k).
Proof.
  intros Hm Hk w. unfold bind. specialize (Hm w).
  destruct (m w) as [[a|e] w']; cbn in *; [|done].
  by rewrite Hk.
Qed.

Lemma keeps_counter_gateway_send gw c : keeps_counter (gateway_send gw c).
Proof. intros w. unfold gateway_send. by destruct (gw _ _). Qed.

Lemma keeps_counter_first_admin cfg : keeps_counter (first_admin cfg).
Proof. intros w. unfold first_admin. by destruct (admins cfg). Qed.

Lemma keeps_counter_add_chat_assoc master_uid slave_uid :
  keeps_counter (add_chat_assoc master_uid slave_uid).
Proof.
  intros w. unfold add_chat_assoc.
  destruct (db w !! slave_uid); [by destruct (decide _)|done].
Qed.

Lemma keeps_counter_for_each {A S} (l : list A) (body : S → A → M S) s :
  (∀ s x, keeps_counter (body s x)) → keeps_counter (for_each l body s).
Proof.
  intros Hbody. revert s. induction l as [|x l IH]; intros s; [done|].
  cbn [for_each]. by apply keeps_counter_bind.
Qed.

Lemma keeps_counter_try body handler last :
  keeps_counter body → keeps_counter handler → keeps_counter last →
  keeps_counter (try_except_finally body handler last).
Proof.
  intros Hb Hh Hl w. unfold try_except_finally.
  specialize (Hb w). destruct (body w) as [[[]|e] w1]; cbn in *.
  - by rewrite Hl.
  - specialize (Hh w1). destruct (handler w1) as [[[]|e'] w2]; cbn in *.
    + rewrite Hl. congruence.
    + specialize (Hl w2). destruct (last w2) as [[[]|e''] w3]; cbn in *;
        congruence.
Qed.

Ltac counter_frame :=
  repeat first
    [ apply keeps_counter_bind; [|intros ?]
    | apply keeps_counter_try
    | apply keeps_counter_for_each; intros ? ?
    | apply keeps_counter_gateway_send
    | apply keeps_counter_first_admin
    | apply keeps_counter_add_chat_assoc
    | match goal with
      | |- keeps_counter (match ?x with _ => _ end) => destruct x
      end
    | done ].

Lemma keeps_counter_unless_network cfg gw update e :
  is_network_failure e = false → keeps_counter (error cfg gw update e).
Proof.
  unfold is_network_failure, classify, error.
  destruct (is_conflict e).
  { intros _. unfold on_conflict. counter_frame. }
  destruct (err_class e); intros Hn; try done.
  - unfold on_bad_request. counter_frame.
  - unfold on_chat_migrated, update_message_chat_id, migrate_row.
    counter_frame.
  - unfold on_other. counter_frame.
Qed.

Lemma counter_step cfg gw update e w :
  timeout_count (error cfg gw update e w).2 =
    timeout_count w + (if is_network_failure e then 1 else 0).
Proof.
  destruct (is_network_failure e) eqn:Hn.
  - apply network_error_counter. unfold is_network_failure in Hn.
    by destruct (classify e).
  - rewrite (keeps_counter_unless_network _ _ _ _ Hn). lia.
Qed.

(** X5.  The counter counts the network failures and nothing else: after
    any run of failures, of whatever kinds and in whatever order, on any
    gateway, and whether the single invocations returned or raised, it
    has grown by the number of failures among them that the network
    clause caught. *)
Theorem counter_counts_network_failures cfg gw failures w :
  timeout_count (feed cfg gw failures w) =
    timeout_count w +
    Z.of_nat (length (List.filter (λ f, is_network_failure f.2) failures)).
Proof.
  unfold feed. revert w.
  induction failures as [|f failures IH]; intros w; cbn [foldl List.filter].
  - cbn. lia.
  - rewrite IH, counter_step.
    destruct (is_network_failure f.2); cbn [length]; lia.
Qed.

(** ** The branches the claims leave out *)

Lemma classify_invalid_request e :
  classify e = Category.InvalidRequest →
  ∀ cfg gw update, error cfg gw update e = on_bad_request cfg gw update e.
Proof.
  unfold classify, error. destruct (is_conflict e); [done|].
  by destruct (err_class e).
Qed.

(** X6.  An invalid request is logged once at error level and reported
    once to the first administrator, as HTML with the error text and the
    update both escaped; the handler returns if the gateway takes the
    alert and raises the gateway's exception if not; counter and store
    stay as they were. *)
Theorem invalid_request_alerts_once cfg gw update e w a rest :
  classify e = Category.InvalidRequest →
  admins cfg = a :: rest →
  let alert := BotManagerSend a (Text.invalid_request_alert update e) HTML in
  error cfg gw update e w =
    (if gw (outbox w) alert then Returned () else Raised TelegramError,
     World (timeout_count w) (db w)
           (logged w ++ [(ERROR, Text.invalid_request_log update e)])
           (outbox w ++ [alert])).
Proof.
  intros Hc Ha. rewrite (classify_invalid_request _ Hc).
  unfold on_bad_request. run. rewrite Ha. run. by destruct (gw _ _).
Qed.

Lemma invalid_request_alerts_once_witness :
  let alert :=
    BotManagerSend 102938475
      (Text.invalid_request_alert (Some Sample.upd100) Sample.bad_request)
      HTML in
  error Sample.cfg always_delivers (Some Sample.upd100) Sample.bad_request
        Sample.linked =
    (if always_delivers (outbox Sample.linked) alert
     then Returned () else Raised TelegramError,
     World (timeout_count Sample.linked) (db Sample.linked)
           (logged Sample.linked ++
              [(ERROR, Text.invalid_request_log (Some Sample.upd100)
                                                Sample.bad_request)])
           (outbox Sample.linked ++ [alert])).
Proof.
  apply (invalid_request_alerts_once Sample.cfg always_delivers
           (Some Sample.upd100) Sample.bad_request Sample.linked
           102938475 [91827364]).
  - vm_compute. reflexivity.
  - reflexivity.
Defined.

Lemma classify_unclassified e :
  classify e = Category.Unclassified →
  ∀ cfg gw update, error cfg gw update e = on_other cfg gw update e.
Proof.
  unfold classify, error. destruct (is_conflict e); [done|].
  by destruct (err_class e).
Qed.

(** X7.  An error that no clause names: the handler tries to tell the
    first administrator, and whether or not that works it returns and
    the last thing it logs is the record of the unhandled error.  When
    the send fails, or there is no administrator to send to, the record
    of the failed send is logged before it. *)
Theorem unclassified_run cfg gw update e w :
  classify e = Category.Unclassified →
  let alert a := BotSend a (Text.encountered_error update e) HTML in
  let attempt :=
    match admins cfg with
    | a :: _ => [alert a]
    | [] => []
    end in
  let sent :=
    match admins cfg with
    | a :: _ => gw (outbox w) (alert a)
    | [] => false
    end in
  error cfg gw update e w =
    (Returned (),
     World (timeout_count w) (db w)
           (logged w ++
              (if sent then [] else [(ERROR, Text.failed_to_send)]) ++
              [(ERROR, Text.unhandled update e)])
           (outbox w ++ attempt)).
Proof.
  intros Hc. rewrite (classify_unclassified _ Hc). cbn zeta.
  unfold on_other, try_except_finally. run.
  destruct (admins cfg) as [|a rest]; run.
  - by rewrite app_nil_r, <- app_assoc.
  - destruct (gw _ _); run; [done|]. by rewrite <- app_assoc.
Qed.

Lemma unclassified_run_witness :
  let e := TgError OtherError "division by zero" in
  error Sample.cfg never_delivers None e Sample.fresh =
    (Returned (),
     World 0 ∅
           [(ERROR, Text.failed_to_send); (ERROR, Text.unhandled None e)]
           [BotSend 102938475 (Text.encountered_error None e) HTML]).
Proof.
  cbn zeta.
  apply (unclassified_run Sample.cfg never_delivers None
           (TgError OtherError "division by zero") Sample.fresh).
  vm_compute. reflexivity.
Defined.

(** X8.  A migration event whose update carries no message, or that
    comes without an update: the handler raises [AttributeError] before
    anything else happens; no row is touched, nothing is logged and
    nothing is sent. *)
Theorem migration_without_message cfg gw update e w :
  classify e = Category.ConversationMigrated →
  reply_target update = None →
  error cfg gw update e w = (Raised AttributeError, w).
Proof.
  intros Hc Hu. destruct (classify_migrated _ Hc) as (new_id & _ & ->).
  unfold on_chat_migrated, update_message_chat_id, reply_target in *.
  destruct update as [u|]; [|done]. by rewrite Hu.
Qed.

Lemma migration_without_message_witness :
  error Sample.cfg always_delivers (Some Sample.upd_callback)
        Sample.migrated Sample.linked =
    (Raised AttributeError, Sample.linked).
Proof.
  apply migration_without_message.
  - vm_compute. reflexivity.
  - reflexivity.
Defined.

(** ** Alerts on network failures, for every gateway *)

(** X9.  Failures that come without a message to reply to, as the
    polling loop reports them: whatever the gateway does with the alerts,
    [n] network failures in a row from a fresh counter leave the counter
    at [n] and have asked for [n / k] operator alerts when the interval
    [k] is positive and for none when it is not. *)
Theorem alerts_without_reply_target cfg gw failures w a rest :
  admins cfg = a :: rest →
  Forall (λ f, classify f.2 = Category.NetworkTransient ∧
               reply_target f.1 = None) failures →
  timeout_count w = 0 → operator_alerts (outbox w) = 0%nat →
  let k := network_error_prompt_interval cfg in
  let n := Z.of_nat (length failures) in
  let w' := feed cfg gw failures w in
  timeout_count w' = n ∧
  Z.of_nat (operator_alerts (outbox w')) = if 0 <? k then n / k else 0.
Proof.
  intros Ha Hall Hc0 Ha0. cbn zeta.
  induction failures as [|f failures IH] using rev_ind.
  - cbn. rewrite Hc0, Ha0. by destruct (0 <? _).
  - apply Forall_app in Hall as [Hall [Hf Hr]%Forall_inv].
    destruct (IH Hall) as [IHc IHa]. clear IH.
    unfold feed in *. rewrite foldl_app. cbn [foldl].
    rewrite length_app, Nat2Z.inj_add. cbn [length]. split.
    + rewrite (network_error_counter _ _ _ _ _ Hf), IHc. lia.
    + rewrite (network_error_alert _ _ _ _ _ a rest Hf Ha)
        by (intros m Hm; congruence).
      rewrite Nat2Z.inj_add, IHa, IHc.
      destruct (Z.ltb_spec 0 (network_error_prompt_interval cfg)); cbn [andb].
      * rewrite div_succ by lia.
        change (Z.of_nat 1) with 1. by destruct (_ =? 0).
      * cbn. lia.
Qed.

Lemma alerts_without_reply_target_witness :
  let failures := replicate 11 (@None Update, Sample.timed_out) in
  let k := network_error_prompt_interval Sample.cfg in
  let n := Z.of_nat (length failures) in
  let w' := feed Sample.cfg never_delivers failures Sample.fresh in
  timeout_count w' = n ∧
  Z.of_nat (operator_alerts (outbox w')) = if 0 <? k then n / k else 0.
Proof.
  apply (alerts_without_reply_target Sample.cfg never_delivers
           (replicate 11 (None, Sample.timed_out)) Sample.fresh
           102938475 [91827364]).
  - reflexivity.
  - repeat constructor.
  - reflexivity.
  - reflexivity.
Defined.

Lemma network_error_no_alert cfg gw update e w :
  classify e = Category.NetworkTransient →
  network_error_prompt_interval cfg ≤ 0 →
  operator_alerts (outbox (error cfg gw update e w).2) =
    operator_alerts (outbox w).
Proof.
  intros Hc Hk. rewrite (classify_network _ Hc).
  unfold on_network_error. run.
  assert ((0 <? network_error_prompt_interval cfg) = false) as ->
    by (apply Z.ltb_ge; lia).
  cbn [andb].
  destruct (reply_target update) as [m|]; run; [|done].
  destruct (gw _ _); run; rewrite operator_alerts_app; cbn; lia.
Qed.

(** X10.  An interval that is not positive switches the network alerts
    off altogether: over any run of network failures, with or without a
    message to reply to, on any gateway and with any list of
    administrators, not one operator alert is asked for. *)
Theorem no_alerts_when_interval_not_positive cfg gw failures w :
  network_error_prompt_interval cfg ≤ 0 →
  Forall (λ f, classify f.2 = Category.NetworkTransient) failures →
  operator_alerts (outbox (feed cfg gw failures w)) =
    operator_alerts (outbox w).
Proof.
  intros Hk Hall. unfold feed. revert w.
  induction Hall as [|f failures Hf Hall IH]; intros w; [done|].
  cbn [foldl]. by rewrite IH, network_error_no_alert.
Qed.

Lemma no_alerts_when_interval_not_positive_witness :
  operator_alerts
    (outbox (feed (Config [102938475] 0 "telegram") always_delivers
                  (replicate 7 (Some Sample.upd100, Sample.timed_out))
                  Sample.fresh)) =
    operator_alerts (outbox Sample.fresh).
Proof.
  apply no_alerts_when_interval_not_positive.
  - cbn. lia.
  - repeat constructor.
Defined.

(** ** What one invocation sends *)

Lemma unauthorized_outbox cfg gw update e w :
  classify e = Category.Unauthorized →
  outbox (error cfg gw update e w).2 = outbox w.
Proof.
  unfold classify, error. destruct (is_conflict e); [done|].
  by destruct (err_class e).
Qed.


Ltac new_calls :=
  first
    [ exists []; split; [by rewrite app_nil_r|]
    | rewrite <- ?app_assoc; eexists; split; [reflexivity|] ];
  cbn [app length List.filter is_reply];
  split; [lia|split];
  [ intros ?; first [congruence | split; [lia|done]]
  | intros c Hin Hr;
    repeat (apply elem_of_cons in Hin as [->|Hin]);
    try (by apply elem_of_nil in Hin); try done; eauto ].

(** X11.  One invocation hands the gateway at most two calls, appended
    to those made before.  Two only for a network failure; every other
    failure gets at most one call and no reply.  A reply is only ever
    the notice of the dropped message, quoted to the message of the
    update that failed. *)
Theorem gateway_calls_per_failure cfg gw update e w :
  ∃ new,
    outbox (error cfg gw update e w).2 = outbox w ++ new ∧
    (length new ≤ 2)%nat ∧
    (is_network_failure e = false →
     (length new ≤ 1)%nat ∧ List.filter is_reply new = []) ∧
    (∀ c, c ∈ new → is_reply c = true →
          ∃ m, reply_target update = Some m ∧
               c = ReplyText m (Text.not_processed e) true HTML).
Proof.
  unfold is_network_failure.
  destruct (classify e) eqn:Hc.
  - apply classify_conflict in Hc. unfold error. rewrite Hc.
    unfold on_conflict. run.
    destruct (admins cfg); run; [new_calls|].
    destruct (gw _ _); run; new_calls.
  - rewrite (unauthorized_outbox _ _ _ _ _ Hc). new_calls.
  - rewrite (classify_invalid_request _ Hc). unfold on_bad_request. run.
    destruct (admins cfg); run; [new_calls|].
    destruct (gw _ _); run; new_calls.
  - rewrite (classify_network _ Hc). unfold on_network_error. run.
    destruct (reply_target update) as [m|] eqn:Hm; run.
    + destruct (gw _ _); run; [|new_calls].
      destruct (_ && _); run; [|new_calls].
      destruct (admins cfg); run; [new_calls|].
      destruct (gw _ _); run; new_calls.
    + destruct (_ && _); run; [|new_calls].
      destruct (admins cfg); run; [new_calls|].
      destruct (gw _ _); run; new_calls.
  - destruct (classify_migrated _ Hc) as (new_id & _ & ->).
    destruct update as [u|]; [destruct (message u) as [m|] eqn:Hm|].
    + rewrite (on_chat_migrated_run _ _ _ _ _ _ Hm). cbn [snd outbox].
      new_calls.
    + unfold on_chat_migrated, update_message_chat_id. rewrite Hm.
      run. new_calls.
    + unfold on_chat_migrated, update_message_chat_id. run. new_calls.
  - rewrite (classify_unclassified _ Hc).
    unfold on_other, try_except_finally. run.
    destruct (admins cfg); run; [new_calls|].
    destruct (gw _ _); run; new_calls.
Qed.

(** ** Telling a polling conflict *)

Lemma keeps_criticals_bind {A B} (m : M A) (k : A → M B) :
  keeps_criticals m → (∀ a, keeps_criticals (k a)) →
  keeps_criticals (bind m k).
Proof.
  intros Hm Hk w. unfold bind. specialize (Hm w).
  destruct (m w) as [[a|e] w']; cbn in *; [|done].
  by rewrite Hk.
Qed.

Lemma keeps_criticals_logger l text :
  l ≠ CRITICAL → keeps_criticals (logger l text).
Proof.
  intros Hl w. unfold logger, criticals. cbn [snd logged].
  rewrite List.filter_app, length_app. cbn.
  unfold is_critical. cbn. destruct l; cbn; [lia|lia|done].
Qed.

Lemma keeps_criticals_gateway_send gw c : keeps_criticals (gateway_send gw c).
Proof. intros w. unfold gateway_send. by destruct (gw _ _). Qed.

Lemma keeps_criticals_first_admin cfg : keeps_criticals (first_admin cfg).
Proof. intros w. unfold first_admin. by destruct (admins cfg). Qed.

Lemma keeps_criticals_add_chat_assoc master_uid slave_uid :
  keeps_criticals (add_chat_assoc master_uid slave_uid).
Proof.
  intros w. unfold add_chat_assoc.
  destruct (db w !! slave_uid); [by destruct (decide _)|done].
Qed.

Lemma keeps_criticals_for_each {A S} (l : list A) (body : S → A → M S) s :
  (∀ s x, keeps_criticals (body s x)) → keeps_criticals (for_each l body s).
Proof.
  intros Hbody. revert s. induction l as [|x l IH]; intros s; [done|].
  cbn [for_each]. by apply keeps_criticals_bind.
Qed.

Lemma keeps_criticals_try body handler last :
  keeps_criticals body → keeps_criticals handler → keeps_criticals last →
  keeps_criticals (try_except_finally body handler last).
Proof.
  intros Hb Hh Hl w. unfold try_except_finally.
  specialize (Hb w). destruct (body w) as [[[]|e] w1]; cbn in *.
  - by rewrite Hl.
  - specialize (Hh w1). destruct (handler w1) as [[[]|e'] w2]; cbn in *.
    + rewrite Hl. congruence.
    + specialize (Hl w2). destruct (last w2) as [[[]|e''] w3]; cbn in *;
        congruence.
Qed.

Ltac criticals_frame :=
  repeat first
    [ apply keeps_criticals_bind; [|intros ?]
    | apply keeps_criticals_try
    | apply keeps_criticals_for_each; intros ? ?
    | apply keeps_criticals_logger; discriminate
    | apply keeps_criticals_gateway_send
    | apply keeps_criticals_first_admin
    | apply keeps_criticals_add_chat_assoc
    | match goal with
      | |- keeps_criticals (match ?x with _ => _ end) => destruct x
      | |- keeps_criticals (if ?x then _ else _) => destruct x
      end
    | done ].

(** Past the text test, no branch writes a [CRITICAL] record. *)
Lemma keeps_criticals_unless_conflict cfg gw update e :
  is_conflict e = false → keeps_criticals (error cfg gw update e).
Proof.
  intros Hc. unfold error. rewrite Hc.
  destruct (err_class e).
  - unfold on_unauthorized. criticals_frame.
  - unfold on_bad_request. criticals_frame.
  - unfold on_network_error. criticals_frame.
  - unfold on_network_error. criticals_frame.
  - unfold on_chat_migrated, update_message_chat_id, migrate_row.
    criticals_frame.
  - unfold on_other. criticals_frame.
Qed.

(** X12.  The handler takes a failure for a polling conflict, and then
    writes the record [CRITICAL: Conflicted polling detected. ...] to
    the log and nothing else, exactly when the marker
    [Conflict: terminated by other long poll or webhook (409)] occurs
    somewhere in the text of the error, with anything before and after
    it.  The class of the error, the update, the configuration and the
    gateway play no part. *)
Theorem polling_conflict_iff_marker cfg gw update e w :
  (∃ pre post,
     err_str e =
       pre +:+ "Conflict: terminated by other long poll or webhook (409)"
           +:+ post) ↔
  logged (error cfg gw update e w).2 =
    logged w ++
      [(CRITICAL,
        "Conflicted polling detected. If this error persists, " +:+
        "please ensure you are running only one instance of " +:+
        "this Telegram bot.")].
Proof.
  change "Conflict: terminated by other long poll or webhook (409)"
    with Text.conflict_marker.
  rewrite <- (contains_spec Text.conflict_marker (err_str e)).
  fold (is_conflict e). split.
  - intros Hc. unfold error. rewrite Hc. unfold on_conflict. run.
    destruct (admins cfg); run; [done|]. by destruct (gw _ _).
  - intros Hlog. destruct (is_conflict e) eqn:Hc; [done|exfalso].
    pose proof (keeps_criticals_unless_conflict cfg gw update e Hc w) as Hk.
    unfold criticals in Hk. rewrite Hlog in Hk.
    rewrite List.filter_app, length_app in Hk. cbn in Hk. lia.
Qed.

Example polling_conflict_by_text :
  logged (error Sample.cfg never_delivers None Sample.forbidden_conflict
                Sample.fresh).2 =
    [(CRITICAL,
      "Conflicted polling detected. If this error persists, " +:+
      "please ensure you are running only one instance of " +:+
      "this Telegram bot.")] ∧
  logged (error Sample.cfg never_delivers None Sample.unauthorized
                Sample.fresh).2 =
    [(ERROR, Text.not_authorised None Sample.unauthorized)].
Proof. split; vm_compute; reflexivity. Qed.

(** ** Migration and the rest of the store *)

(** X13.  With the store operations as modelled, a migration neither
    drops nor creates a slave ref, and it leaves alone every row that is
    not bound to the old master, on any gateway and also when the
    confirmation is refused. *)
Theorem migration_keeps_other_rows cfg gw u m new_id e w :
  classify e = Category.ConversationMigrated →
  err_class e = ChatMigrated new_id →
  message u = Some m →
  let old_uid := chat_id_to_str (channel_id cfg) (chat_id m) in
  let w' := (error cfg gw (Some u) e w).2 in
  dom (db w') = dom (db w) ∧
  ∀ slave, db w !! slave ≠ Some old_uid → db w' !! slave = db w !! slave.
Proof.
  intros Hc He Hm. cbn zeta.
  destruct (classify_migrated _ Hc) as (new_id' & He' & ->).
  rewrite (on_chat_migrated_run _ _ _ _ _ _ Hm). cbn [snd db]. split.
  - unfold rewrite_master. apply dom_fmap_L.
  - intros slave Hs. rewrite rewrite_master_lookup.
    destruct (db w !! slave) as [master|]; [|done].
    rewrite decide_False; [done|]. congruence.
Qed.

Lemma migration_keeps_other_rows_witness :
  let w := World 0 {[ "wechat#group1" := "telegram#100";
                      "qq#friend" := "telegram#300" ]} [] [] in
  let old_uid := chat_id_to_str (channel_id Sample.cfg)
                                (chat_id Sample.msg100) in
  let w' := (error Sample.cfg never_delivers (Some Sample.upd100)
                   Sample.migrated w).2 in
  dom (db w') = dom (db w) ∧
  ∀ slave, db w !! slave ≠ Some old_uid → db w' !! slave = db w !! slave.
Proof.
  cbn zeta.
  apply (migration_keeps_other_rows Sample.cfg never_delivers Sample.upd100
           Sample.msg100 200 Sample.migrated).
  - vm_compute. reflexivity.
  - reflexivity.
  - reflexivity.
Defined.

(** ** Without an administrator *)

(** X14.  With an empty list of administrators, a polling conflict and
    an invalid request are still logged, but the read of the first
    administrator then raises [IndexError]: the handler does not return
    and the gateway is handed nothing. *)
Theorem no_admin_no_alert cfg gw update e w :
  admins cfg = [] →
  classify e = Category.PollingConflict ∨
  classify e = Category.InvalidRequest →
  let r := error cfg gw update e w in
  r.1 = Raised IndexError ∧
  outbox r.2 = outbox w ∧
  length (logged r.2) = S (length (logged w)).
Proof.
  intros Ha [Hc|Hc]; cbn zeta.
  - apply classify_conflict in Hc. unfold error. rewrite Hc.
    unfold on_conflict. run. rewrite Ha. run.
    by rewrite length_app, Nat.add_1_r.
  - rewrite (classify_invalid_request _ Hc).
    unfold on_bad_request. run. rewrite Ha. run.
    by rewrite length_app, Nat.add_1_r.
Qed.

Lemma no_admin_no_alert_witness :
  let r := error (Config [] 5 "telegram") always_delivers None
                 Sample.conflict Sample.fresh in
  r.1 = Raised IndexError ∧
  outbox r.2 = outbox Sample.fresh ∧
  length (logged r.2) = S (length (logged Sample.fresh)).
Proof.
  apply no_admin_no_alert.
  - reflexivity.
  - left. vm_compute. reflexivity.
Defined.

(** ** Markup in what is sent as HTML *)

Lemma count_char_app c s1 s2 :
  count_char c (s1 +:+ s2) = (count_char c s1 + count_char c s2)%nat.
Proof.
  induction s1 as [|c' s1 IH]; [done|].
  rewrite app_cons. cbn [count_char]. rewrite IH. lia.
Qed.

Lemma count_bracket_escape c s :
  c = "<"%char ∨ c = ">"%char →
  count_char c (Str.html_escape s) = 0%nat.
Proof.
  intros Hc. induction s as [|c' s IH]; [done|].
  cbn [Str.html_escape]. rewrite count_char_app, IH, Nat.add_0_r.
  unfold Str.escape_char.
  destruct (Ascii.eqb_spec c' "&"); [by destruct Hc as [->| ->]|].
  destruct (Ascii.eqb_spec c' "<"); [by destruct Hc as [->| ->]|].
  destruct (Ascii.eqb_spec c' ">"); [by destruct Hc as [->| ->]|].
  destruct (Ascii.eqb_spec c' "034"); [by destruct Hc as [->| ->]|].
  destruct (Ascii.eqb_spec c' "'"); [by destruct Hc as [->| ->]|].
  cbn [count_char]. destruct (Ascii.eqb_spec c c'); [|done].
  destruct Hc; congruence.
Qed.

(** X15.  The three messages that embed the error text or the update
    and go out with parse mode HTML carry no angle bracket of that
    payload: whatever the error text and the update are, the only
    brackets in the message are those of the handler's own [code]
    tags. *)
Theorem html_payload_cannot_open_tags update e c :
  c = "<"%char ∨ c = ">"%char →
  count_char c (Text.invalid_request_alert update e) = 2%nat ∧
  count_char c (Text.not_processed e) = 2%nat ∧
  count_char c (Text.encountered_error update e) = 4%nat.
Proof.
  intros Hc.
  unfold Text.invalid_request_alert, Text.not_processed,
    Text.encountered_error.
  rewrite !count_char_app, !(count_bracket_escape _ _ Hc).
  by destruct Hc as [->| ->].
Qed.

Lemma html_payload_cannot_open_tags_witness :
  let e := TgError BadRequest "Can't parse entities: <b> is not closed" in
  count_char "<" (Text.invalid_request_alert (Some Sample.upd100) e) = 2%nat ∧
  count_char "<" (Text.not_processed e) = 2%nat ∧
  count_char "<" (Text.encountered_error (Some Sample.upd100) e) = 4%nat.
Proof.
  cbn zeta. apply html_payload_cannot_open_tags. by left.
Defined.

(** ** [info] *)

Section InfoProperties.

Variable version : string.
Variable channel : string.
Variable slaves : list (string * slave_channel).
Variable chat_id_str_to_id : string → string * string.
Variable chat_record : Type.
Variable get_chat_from_db : string → string → option chat_record.
Variable full_name : chat_record → string.

Local Abbreviation line_of :=
  (link_line slaves chat_id_str_to_id chat_record get_chat_from_db full_name).
Local Abbreviation lines_of :=
  (link_lines slaves chat_id_str_to_id chat_record get_chat_from_db full_name).
Local Abbreviation unprintable :=
  (nothing_to_print slaves chat_id_str_to_id chat_record get_chat_from_db).
Local Abbreviation info_of :=
  (info version channel slaves chat_id_str_to_id chat_record
        get_chat_from_db full_name).

Lemma slave_lookup_member i ch (l : list (string * slave_channel)) :
  (i, ch) ∈ l → is_Some (slave_lookup i l).
Proof.
  induction l as [|[i' ch'] l IH]; [by intros ?%elem_of_nil|].
  intros Hin. cbn. destruct (String.eqb_spec i i'); [by eexists|].
  apply elem_of_cons in Hin as [[= -> ->]|Hin]; [done|auto].
Qed.

Lemma slave_lines_total (l : list (string * slave_channel)) msg :
  l ⊆ slaves → ∃ text, slave_lines slaves l msg = inr text.
Proof.
  revert msg. induction l as [|[i ch] l IH]; intros msg Hl; [by eexists|].
  cbn. destruct (slave_lookup_member i ch slaves) as [ch' ->].
  { apply Hl. by left. }
  apply IH. intros x Hx. apply Hl. by right.
Qed.

Lemma link_line_fails i :
  (∃ k, line_of i = inl (KeyError k)) ↔ unprintable i.
Proof.
  unfold link_line, nothing_to_print.
  destruct (chat_id_str_to_id i) as [ch id]. cbn [fst snd].
  destruct (get_chat_from_db ch id).
  { split; [by intros [k ?]|by intros [? _]]. }
  destruct (slave_lookup ch slaves).
  - split; [by intros [k ?]|by intros [_ ?]].
  - split; [done|]. by exists ch.
Qed.

Lemma link_lines_fail links msg :
  (∃ k, lines_of links msg = inl (KeyError k)) ↔
  ∃ i, i ∈ links ∧ unprintable i.
Proof.
  revert msg. induction links as [|i links IH]; intros msg; cbn.
  - split; [by intros [k ?]|]. by intros (i & ?%elem_of_nil & _).
  - destruct (line_of i) as [[k]|line] eqn:Hi.
    + split; [|by exists k]. intros _. exists i. split; [by left|].
      apply link_line_fails. by exists k.
    + rewrite IH. split.
      * intros (i' & Hin & Hn). exists i'. split; [by right|done].
      * intros (i' & Hin & Hn).
        apply elem_of_cons in Hin as [->|Hin]; [|by exists i'].
        apply link_line_fails in Hn as [k Hk]. congruence.
Qed.

(** X16.  [info] raises [KeyError] exactly when it is asked in a group
    (the chat is not the sender's own) and some chat linked to the group
    has no record in the database and belongs to a channel that is not
    among the active slave channels.  In a private chat, and in a group
    without links, it always has a text to reply with. *)
Theorem info_key_error_iff (c : Command) (d : gmap string string) :
  (∃ k, info_of c d = inl (KeyError k)) ↔
  chat_id (cmd_message c) ≠ from_user_id c ∧
  ∃ i, i ∈ slaves_of (chat_id_to_str channel (chat_id (cmd_message c))) d ∧
       unprintable i.
Proof.
  unfold info.
  destruct (Z.eqb_spec (chat_id (cmd_message c)) (from_user_id c)) as [He|Hne].
  - destruct (slave_lines_total slaves
                (InfoText.private_header version (length slaves)))
      as [text ->]; [done|].
    split; [by intros [k ?]|by intros [? _]].
  - destruct (slaves_of _ d) as [|i links] eqn:Hl.
    + split; [by intros [k ?]|]. by intros (_ & i & ?%elem_of_nil & _).
    + rewrite link_lines_fail. split; [by split|by intros [_ ?]].
Qed.



End InfoProperties.


(** The same group when the channel of its linked chat is not active and
    the database has no record of the chat. *)
Example info_key_error :
  info "2.0" "telegram" [] InfoSample.chat_id_str_to_id string
       (λ _ _, None) InfoSample.full_name InfoSample.in_group
       (db Sample.linked) = inl (KeyError "wechat").
Proof. vm_compute. reflexivity. Qed.
